(** * The in-memory CIM repository of pywbem_mock

    A shallow embedding of [pywbem_mock/_inmemoryrepository.py]:
    the object store [InMemoryObjectStore] and the namespace repository
    [InMemoryRepository], with the Python features they rely on (string
    methods, the two dictionary types, exceptions, object references). *)

From Equations Require Import Equations.
From stdpp Require Import base decidable option list strings.
From Stdlib Require Import Ascii String Bool Lia.

Local Open Scope string_scope.
Local Open Scope list_scope.

(** ** Python strings: [str.lower] and [str.strip] *)

(** [str.lower] on one character.  Names are modelled as strings of 8-bit
    characters; the letters [A]..[Z] are folded, every other character is
    kept. *)
Definition ascii_lower (c : ascii) : ascii :=
  let n := nat_of_ascii c in
  if (65 <=? n)%nat && (n <=? 90)%nat then ascii_of_nat (n + 32) else c.

Fixpoint str_lower (s : string) : string :=
  match s with
  | EmptyString => EmptyString
  | String c s' => String (ascii_lower c) (str_lower s')
  end.

(** Objects that have a [lower()] method, as the keys of a [NocaseDict]
    must. *)
Class Lower (K : Type) := lower : K → K.
#[global] Instance string_lower : Lower string := str_lower.

(** [c in chars] for a character and a string of characters. *)
Fixpoint char_in (c : ascii) (chars : string) : bool :=
  match chars with
  | EmptyString => false
  | String d chars' => bool_decide (c = d) || char_in c chars'
  end.

(** [s.lstrip(chars)]: drop the leading characters that occur in [chars]. *)
Fixpoint lstrip (chars : string) (s : string) : string :=
  match s with
  | EmptyString => EmptyString
  | String c s' => if char_in c chars then lstrip chars s' else s
  end.

(** [s.rstrip(chars)]: drop the trailing characters that occur in [chars]. *)
Fixpoint rstrip (chars : string) (s : string) : string :=
  match s with
  | EmptyString => EmptyString
  | String c s' =>
      match rstrip chars s' with
      | EmptyString => if char_in c chars then EmptyString else String c EmptyString
      | r => String c r
      end
  end.

(** [s.strip(chars)] *)
Definition strip (chars : string) (s : string) : string :=
  rstrip chars (lstrip chars s).

(** Every character of [s] occurs in [chars]. *)
Fixpoint all_in (chars : string) (s : string) : bool :=
  match s with
  | EmptyString => true
  | String c s' => char_in c chars && all_in chars s'
  end.

(** ** Python dictionaries

    Both dictionary types keep their items in insertion order.  An item is
    found by comparing keys after [real_key]: the identity for the built-in
    [dict], [lower] for [NocaseDict]. *)

Section ordered_dict.
Context {K V : Type} `{EqDecision K} (real_key : K → K).

Definition same_key (k k' : K) : bool := bool_decide (real_key k = real_key k').

(** [k in d] *)
Fixpoint od_contains (k : K) (d : list (K * V)) : bool :=
  match d with
  | [] => false
  | (k', _) :: d' => same_key k' k || od_contains k d'
  end.

(** [d[k]]; [None] stands for the [KeyError] of a missing key. *)
Fixpoint od_getitem (k : K) (d : list (K * V)) : option V :=
  match d with
  | [] => None
  | (k', v) :: d' => if same_key k' k then Some v else od_getitem k d'
  end.

(** [d[k] = v]: an existing item is replaced where it stands, a new one is
    appended. *)
Fixpoint od_setitem (k : K) (v : V) (d : list (K * V)) : list (K * V) :=
  match d with
  | [] => [(k, v)]
  | (k', v') :: d' =>
      if same_key k' k then (k, v) :: d' else (k', v') :: od_setitem k v d'
  end.

(** [del d[k]] (for a key that is present) *)
Fixpoint od_delitem (k : K) (d : list (K * V)) : list (K * V) :=
  match d with
  | [] => []
  | (k', v') :: d' =>
      if same_key k' k then od_delitem k d' else (k', v') :: od_delitem k d'
  end.

(** [len(d)] *)
Definition od_len (d : list (K * V)) : nat := List.length d.

(** [list(d)]: the keys as they were given, in order. *)
Definition od_keys (d : list (K * V)) : list K := d.*1.
End ordered_dict.

(** The built-in [dict]: keys are compared with [==]. *)
Definition dict (K V : Type) : Type := list (K * V).

(** Modelled from the spec: [pywbem._nocasedict.NocaseDict] is not among the
    sources.  It is a dictionary with case-insensitive keys: keys are folded
    to a normalized case for every comparison, while the key as it was given
    is what the dictionary stores and iterates over. *)
Definition NocaseDict (K V : Type) : Type := list (K * V).

(** ** Python types, exceptions and the evaluation monad *)

(** The classes that can be handed to an object store or found on an object:
    the three CIM object classes and any other class, known by its name. *)
Inductive pytype :=
  | CIMClass
  | CIMInstance
  | CIMQualifierDeclaration
  | OtherType (type_name : string).

#[global] Instance pytype_eq_dec : EqDecision pytype.
Proof. solve_decision. Defined.

(** [t.__name__] *)
Definition __name__ (t : pytype) : string :=
  match t with
  | CIMClass => "CIMClass"
  | CIMInstance => "CIMInstance"
  | CIMQualifierDeclaration => "CIMQualifierDeclaration"
  | OtherType n => n
  end.

(** The arguments of the exceptions the module raises, one constructor per
    message template, with the values formatted into it. *)
Inductive message (K : Type) :=
  | not_in_object_store (name : K) (cim_object_type : pytype)
      (* '{} not in {} object store' *)
  | already_in_object_store (name : K) (cim_object_type : pytype)
      (* '{} already in {} object store' *)
  | invalid_input_parameter (cim_object_type : pytype)
      (* "InMemoryObjectStore: Invalid input parameter {}." *)
  | namespace_must_not_be_None
      (* "Namespace argument must not be None" *)
  | namespace_does_not_exist (namespace : string)
      (* 'Namespace {} does not exist in repository' *)
  | namespace_already_in_repository (namespace : string)
      (* 'Namespace {} already in repository' *)
  | namespace_not_empty (namespace : string)
      (* 'Namespace {} removal invalid. Namespace not empty' *)
  | namespace_None_not_permitted
      (* "Namespace None not permitted." *)
  | missing_key
      (* the argument of the KeyError of a dictionary lookup *)
  | no_attribute (attr : string).
      (* "'NoneType' object has no attribute '{}'" *)
Arguments not_in_object_store {K}.
Arguments already_in_object_store {K}.
Arguments invalid_input_parameter {K}.
Arguments namespace_must_not_be_None {K}.
Arguments namespace_does_not_exist {K}.
Arguments namespace_already_in_repository {K}.
Arguments namespace_not_empty {K}.
Arguments namespace_None_not_permitted {K}.
Arguments missing_key {K}.
Arguments no_attribute {K}.

(** Python exceptions, by class. *)
Inductive exception (K : Type) :=
  | KeyError (args : message K)
  | ValueError (args : message K)
  | AssertionError (args : option (message K))
  | AttributeError (args : message K).
Arguments KeyError {K}.
Arguments ValueError {K}.
Arguments AssertionError {K}.
Arguments AttributeError {K}.

Definition is_KeyError {K} (e : exception K) : bool :=
  match e with KeyError _ => true | _ => false end.
Definition is_ValueError {K} (e : exception K) : bool :=
  match e with ValueError _ => true | _ => false end.

(** The outcome of a call: a returned value, a raised exception, or [Stuck]
    where the model has no value for what the program goes on with: a
    reference that denotes no object is followed (which no Python program can
    do: the heap model below has such references, Python has not), or an
    [InMemoryObjectStore] object without its dictionary is put where the
    model keeps a store (see [initialized] below). *)
Inductive outcome (K A : Type) :=
  | Return (a : A)
  | Raise (e : exception K)
  | Stuck.
Arguments Return {K A}.
Arguments Raise {K A}.
Arguments Stuck {K A}.

(** A call runs in a state [S], which it may change before it returns or
    raises. *)
Definition M (K S A : Type) : Type := S → outcome K A * S.

(** The constant [__debug__] of the interpreter: [True] unless Python was
    started with [-O], which compiles the [assert] statements away. *)
Class Assertions := __debug__ : bool.

(** The interpreter as it is started by default, and under [-O]. *)
Definition assertions_on : Assertions := true.
Definition assertions_off : Assertions := false.

Section monad.
Context {K S : Type} {python : Assertions}.

Definition ret {A} (a : A) : M K S A := λ s, (Return a, s).

Definition bind {A B} (m : M K S A) (f : A → M K S B) : M K S B :=
  λ s, match m s with
       | (Return a, s') => f a s'
       | (Raise e, s') => (Raise e, s')
       | (Stuck, s') => (Stuck, s')
       end.

Definition raise {A} (e : exception K) : M K S A := λ s, (Raise e, s).

Definition gets {A} (f : S → A) : M K S A := λ s, (Return (f s), s).

Definition modify (f : S → S) : M K S unit := λ s, (Return tt, f s).

(** [assert b], which is [if __debug__: if not b: raise AssertionError] *)
Definition assert_ (b : bool) : M K S unit :=
  if __debug__ then
    if b then ret tt else raise (AssertionError None)
  else ret tt.

(** [assert b, msg], which is
    [if __debug__: if not b: raise AssertionError(msg)] *)
Definition assert_msg (b : bool) (msg : message K) : M K S unit :=
  if __debug__ then
    if b then ret tt else raise (AssertionError (Some msg))
  else ret tt.

(** [a or b], evaluated left to right *)
Definition or_ (a b : M K S bool) : M K S bool :=
  bind a (λ x, if x then ret true else b).
End monad.

Notation "'do' x <- m ; k" := (bind m (λ x, k))
  (at level 10, x name, m at level 100, k at level 200).

(** [raised m s P]: the call [m] in state [s] raises an exception that
    satisfies [P]. *)
Definition raised {K S A} (m : M K S A) (s : S) (P : exception K → bool) : bool :=
  match m s with
  | (Raise e, _) => P e
  | _ => false
  end.

(** [returned m s]: the call returns a value. *)
Definition returned {K S A} (m : M K S A) (s : S) : bool :=
  match m s with
  | (Return _, _) => true
  | _ => false
  end.


(** ** Objects and references *)

(** A Python object: its class and its attributes.  Attribute values are
    kept as text; the stores never look inside an object. *)
Record PyObject := { ob_type : pytype; ob_dict : list (string * string) }.

#[global] Instance PyObject_eq_dec : EqDecision PyObject.
Proof. solve_decision. Defined.

(** Objects live in a heap and are passed around by reference: two
    references are the same object exactly when they are equal, and an
    assignment to an attribute of [o] is an update of the heap at [o]. *)
Abbreviation ref := nat.
Abbreviation heap := (list PyObject).

(** [o.attr = ...]: any change to the object behind [o] replaces its heap
    cell. *)
Definition mutate (o : ref) (v : PyObject) (h : heap) : heap := <[o := v]> h.

(** [isinstance(o, t)] (the three CIM classes have no subclasses) *)
Definition isinstance (h : heap) (o : ref) (t : pytype) : bool :=
  match h !! o with
  | Some v => bool_decide (ob_type v = t)
  | None => false
  end.

Section object_store.
Context {K : Type} `{EqDecision K} `{Lower K} {python : Assertions}.

(** Modelled from the spec: the [copy()] method of [CIMClass],
    [CIMInstance] and [CIMQualifierDeclaration] ([pywbem._cim_obj] is not
    among the sources).  It is a deep copy: a new object, equal to the
    original, that shares nothing with it. *)
Definition obj_copy (o : ref) : M K heap ref :=
  λ h, match h !! o with
       | Some v => (Return (List.length h), h ++ [v])
       | None => (Stuck, h)
       end.

(** *** [class InMemoryObjectStore] *)

(** The dictionary behind a store is one of the two dictionary types. *)
Inductive data :=
  | NocaseData (d : NocaseDict K ref)
  | DictData (d : dict K ref).

Definition data_real_key (d : data) : K → K :=
  match d with
  | NocaseData _ => lower
  | DictData _ => id
  end.

Definition data_items (d : data) : list (K * ref) :=
  match d with
  | NocaseData d => d
  | DictData d => d
  end.

Definition data_with_items (d : data) (items : list (K * ref)) : data :=
  match d with
  | NocaseData _ => NocaseData items
  | DictData _ => DictData items
  end.

Definition data_contains (name : K) (d : data) : bool :=
  od_contains (data_real_key d) name (data_items d).
Definition data_getitem (name : K) (d : data) : option ref :=
  od_getitem (data_real_key d) name (data_items d).
Definition data_setitem (name : K) (o : ref) (d : data) : data :=
  data_with_items d (od_setitem (data_real_key d) name o (data_items d)).
Definition data_delitem (name : K) (d : data) : data :=
  data_with_items d (od_delitem (data_real_key d) name (data_items d)).

Record InMemoryObjectStore := {
  _cim_object_type : pytype;   (* set by BaseObjectStore.__init__ *)
  _data : data
}.

(** The object a call of the class leaves: a store, with its dictionary,
    or an object on which [__init__] has set no [_data], which is what its
    last branch leaves when the [assert] is compiled away.  The methods
    below are those of a store; on an object without [_data] each of them
    raises [AttributeError] at its first [self._data]. *)
Inductive InMemoryObjectStore_object :=
  | Store (self : InMemoryObjectStore)
  | Without_data (cim_object_type : pytype).

(** [InMemoryObjectStore.__init__(self, cim_object_type)] *)
Definition InMemoryObjectStore_init {S} (cim_object_type : pytype)
  : M K S InMemoryObjectStore_object :=
  if bool_decide (__name__ cim_object_type ∈ ["CIMClass"; "CIMQualifierDeclaration"])
  then ret (Store {| _cim_object_type := cim_object_type; _data := NocaseData [] |})
  else if bool_decide (__name__ cim_object_type = "CIMInstance")
  then ret (Store {| _cim_object_type := cim_object_type; _data := DictData [] |})
  else
    do _ <- assert_msg false (invalid_input_parameter cim_object_type);
    ret (Without_data cim_object_type).

(** An object of the class where the model keeps a store, as the values of
    a namespace dictionary are: the store it is.  [add_namespace] creates
    its stores for the three CIM object types, for which [__init__] sets
    [_data]. *)
Definition initialized {S} (o : InMemoryObjectStore_object)
  : M K S InMemoryObjectStore :=
  match o with
  | Store self => ret self
  | Without_data _ => λ s, (Stuck, s)
  end.

(** The methods run on a store and the heap of the objects. *)
Record world := { self : InMemoryObjectStore; objects : heap }.

Definition on_objects {A} (m : M K heap A) : M K world A :=
  λ w, let (r, h) := m (objects w) in (r, {| self := self w; objects := h |}).

(** [self._data[name]] *)
Definition self_data_getitem (name : K) : M K world ref :=
  do d <- gets (λ w, _data (self w));
  match data_getitem name d with
  | Some o => ret o
  | None => raise (KeyError missing_key)
  end.

(** [self._data[name] = o] *)
Definition self_data_setitem (name : K) (o : ref) : M K world unit :=
  modify (λ w, {| self := {| _cim_object_type := _cim_object_type (self w);
                             _data := data_setitem name o (_data (self w)) |};
                  objects := objects w |}).

(** [del self._data[name]] *)
Definition self_data_delitem (name : K) : M K world unit :=
  modify (λ w, {| self := {| _cim_object_type := _cim_object_type (self w);
                             _data := data_delitem name (_data (self w)) |};
                  objects := objects w |}).

(** [exists(self, name)] *)
Definition exists_ (self : InMemoryObjectStore) (name : K) : bool :=
  data_contains name (_data self).

(** [get(self, name, copy=True)] *)
Definition get (name : K) (copy : bool) : M K world ref :=
  do self <- gets self;
  if data_contains name (_data self) then
    if copy then
      do o <- self_data_getitem name;
      on_objects (obj_copy o)
    else self_data_getitem name
  else raise (KeyError (not_in_object_store name (_cim_object_type self))).

(** [create(self, name, cim_object)] *)
Definition create (name : K) (cim_object : ref) : M K world unit :=
  do self <- gets self;
  do ok <- gets (λ w, isinstance (objects w) cim_object (_cim_object_type self));
  do _ <- assert_ ok;
  if data_contains name (_data self) then
    raise (ValueError (already_in_object_store name (_cim_object_type self)))
  else
    do o <- on_objects (obj_copy cim_object);
    self_data_setitem name o.

(** [update(self, name, cim_object)] *)
Definition update (name : K) (cim_object : ref) : M K world unit :=
  do self <- gets self;
  do ok <- gets (λ w, isinstance (objects w) cim_object (_cim_object_type self));
  do _ <- assert_ ok;
  if negb (data_contains name (_data self)) then
    raise (KeyError (not_in_object_store name (_cim_object_type self)))
  else
    do o <- on_objects (obj_copy cim_object);
    self_data_setitem name o.

(** [delete(self, name)] *)
Definition delete (name : K) : M K world unit :=
  do self <- gets self;
  if data_contains name (_data self) then self_data_delitem name
  else raise (KeyError (not_in_object_store name (_cim_object_type self))).

(** The store after [self._data[name] = o]. *)
Definition stored (st : InMemoryObjectStore) (name : K) (o : ref)
  : InMemoryObjectStore :=
  {| _cim_object_type := _cim_object_type st;
     _data := data_setitem name o (_data st) |}.

Definition same_dict_type (d d' : data) : bool :=
  match d, d' with
  | NocaseData _, NocaseData _ | DictData _, DictData _ => true
  | _, _ => false
  end.

(** The invariant of the class: the dictionary of a store is of the type
    that [__init__] chooses for the store's object type. *)
Definition store_inv (st : InMemoryObjectStore) : bool :=
  match InMemoryObjectStore_init (_cim_object_type st) tt with
  | (Return (Store st0), _) => same_dict_type (_data st) (_data st0)
  | _ => false
  end.

(** [iter_names(self)], as the list it runs through *)
Definition iter_names (self : InMemoryObjectStore) : list K :=
  od_keys (data_items (_data self)).

(** [len(self)] *)
Definition len (self : InMemoryObjectStore) : nat :=
  od_len (data_items (_data self)).
End object_store.

Arguments data : clear implicits.
Arguments InMemoryObjectStore : clear implicits.
Arguments InMemoryObjectStore_object : clear implicits.
Arguments world : clear implicits.

Section repository.
Context {K : Type} `{EqDecision K} `{Lower K} {python : Assertions}.

(** *** [class InMemoryRepository] *)

(** The value kept for a namespace: the dictionary with the keys
    ['classes'], ['instances'] and ['qualifiers'], each holding the object
    store of that kind. *)
Record namespace_dict := {
  classes : InMemoryObjectStore K;
  instances : InMemoryObjectStore K;
  qualifiers : InMemoryObjectStore K
}.

Record InMemoryRepository := {
  _repository : NocaseDict string namespace_dict
}.

(** [namespace.strip(chars)] for an argument that may be [None] *)
Definition str_strip {S} (namespace : option string) (chars : string)
  : M K S string :=
  match namespace with
  | Some s => ret (strip chars s)
  | None => raise (AttributeError (no_attribute "strip"))
  end.

(** [self._repository[namespace]] *)
Definition repository_getitem (namespace : string)
  : M K InMemoryRepository namespace_dict :=
  do r <- gets _repository;
  match od_getitem lower namespace r with
  | Some d => ret d
  | None => raise (KeyError missing_key)
  end.

(** [validate_namespace(self, namespace)] *)
Definition validate_namespace (namespace : option string)
  : M K InMemoryRepository unit :=
  if bool_decide (namespace = None) then
    raise (ValueError namespace_must_not_be_None)
  else
    do namespace <- str_strip namespace "/";
    do r <- gets _repository;
    match od_getitem lower namespace r with
    | Some _ => ret tt
    | None => raise (KeyError (namespace_does_not_exist namespace))
    end.

(** [add_namespace(self, namespace)].  The source first binds the
    namespace to an empty dictionary and then fills in the three stores;
    the three constructor calls return, and return stores, with assertions
    and without, so the dictionary is entered here once it is complete. *)
Definition add_namespace (namespace : option string)
  : M K InMemoryRepository unit :=
  if bool_decide (namespace = None) then
    raise (ValueError namespace_must_not_be_None)
  else
    do namespace <- str_strip namespace "/";
    do r <- gets _repository;
    if od_contains lower namespace r then
      raise (ValueError (namespace_already_in_repository namespace))
    else
      do c <- InMemoryObjectStore_init CIMClass;
      do c <- initialized c;
      do i <- InMemoryObjectStore_init CIMInstance;
      do i <- initialized i;
      do q <- InMemoryObjectStore_init CIMQualifierDeclaration;
      do q <- initialized q;
      modify (λ self, {| _repository :=
        od_setitem lower namespace
          {| classes := c; instances := i; qualifiers := q |}
          (_repository self) |}).

(** [get_class_repo(self, namespace)] *)
Definition get_class_repo (namespace : option string)
  : M K InMemoryRepository (InMemoryObjectStore K) :=
  if bool_decide (namespace = None) then
    raise (ValueError namespace_None_not_permitted)
  else
    do namespace <- str_strip namespace "/";
    do _ <- validate_namespace (Some namespace);
    do d <- repository_getitem namespace;
    ret (classes d).

(** [get_instance_repo(self, namespace)] *)
Definition get_instance_repo (namespace : option string)
  : M K InMemoryRepository (InMemoryObjectStore K) :=
  if bool_decide (namespace = None) then
    raise (ValueError namespace_None_not_permitted)
  else
    do namespace <- str_strip namespace "/";
    do _ <- validate_namespace (Some namespace);
    do d <- repository_getitem namespace;
    ret (instances d).

(** [get_qualifier_repo(self, namespace)] *)
Definition get_qualifier_repo (namespace : option string)
  : M K InMemoryRepository (InMemoryObjectStore K) :=
  if bool_decide (namespace = None) then
    raise (ValueError namespace_None_not_permitted)
  else
    do namespace <- str_strip namespace "/";
    do _ <- validate_namespace (Some namespace);
    do d <- repository_getitem namespace;
    ret (qualifiers d).

(** [store.len() != 0] for the store an accessor returns *)
Definition not_empty (repo : M K InMemoryRepository (InMemoryObjectStore K))
  : M K InMemoryRepository bool :=
  do store <- repo;
  ret (negb (len store =? 0)%nat).

(** [remove_namespace(self, namespace)] *)
Definition remove_namespace (namespace : option string)
  : M K InMemoryRepository unit :=
  do _ <- validate_namespace namespace;
  do namespace <- str_strip namespace "/";
  do used <- or_ (not_empty (get_class_repo (Some namespace)))
            (or_ (not_empty (get_qualifier_repo (Some namespace)))
                 (not_empty (get_instance_repo (Some namespace))));
  if used then
    raise (ValueError (namespace_not_empty namespace))
  else
    modify (λ self, {| _repository :=
      od_delitem lower namespace (_repository self) |}).

(** The [namespaces] property: [list(self._repository)] *)
Definition namespaces (self : InMemoryRepository) : list string :=
  od_keys (_repository self).

(** The keys of a namespace dictionary, the accessor of each, and the
    store under each. *)
Inductive store_key := classes_key | instances_key | qualifiers_key.

Definition accessor (k : store_key)
  : option string → M K InMemoryRepository (InMemoryObjectStore K) :=
  match k with
  | classes_key => get_class_repo
  | instances_key => get_instance_repo
  | qualifiers_key => get_qualifier_repo
  end.

Definition store_of (k : store_key) (d : namespace_dict)
  : InMemoryObjectStore K :=
  match k with
  | classes_key => classes d
  | instances_key => instances d
  | qualifiers_key => qualifiers d
  end.

(** The namespace dictionary [add_namespace] enters. *)
Definition empty_namespace : namespace_dict :=
  {| classes := {| _cim_object_type := CIMClass; _data := NocaseData [] |};
     instances := {| _cim_object_type := CIMInstance; _data := DictData [] |};
     qualifiers := {| _cim_object_type := CIMQualifierDeclaration;
                      _data := NocaseData [] |} |}.

(** [namespace.strip('/') in self._repository]: the name, once
    normalized, is a namespace of the repository. *)
Definition has_namespace (self : InMemoryRepository) (namespace : string)
  : bool :=
  od_contains lower (strip "/" namespace) (_repository self).

(** [InMemoryRepository.__init__(self, initial_namespace=None)]: the
    outcome of the constructor and the repository it leaves. *)
Definition InMemoryRepository_init (initial_namespace : option string)
  : outcome K unit * InMemoryRepository :=
  (if bool_decide (initial_namespace ≠ None ∧ initial_namespace ≠ Some EmptyString)
   then add_namespace initial_namespace
   else ret tt) {| _repository := [] |}.
End repository.

Arguments namespace_dict : clear implicits.
Arguments InMemoryRepository : clear implicits.
Arguments empty_namespace : clear implicits.


(** ** Sample objects, stores and repositories, with string names *)

Definition Foo_class : PyObject :=
  {| ob_type := CIMClass; ob_dict := [("classname", "Foo")] |}.
Definition Foo_instance : PyObject :=
  {| ob_type := CIMInstance; ob_dict := [("classname", "Foo"); ("Id", "1")] |}.
Definition Bar_class : PyObject :=
  {| ob_type := CIMClass; ob_dict := [("classname", "Bar")] |}.

(** The objects a caller holds: a class at reference 0, an instance at 1. *)
Definition caller_heap : heap := [Foo_class; Foo_instance].

Definition class_store : InMemoryObjectStore string :=
  {| _cim_object_type := CIMClass; _data := NocaseData [] |}.
Definition instance_store : InMemoryObjectStore string :=
  {| _cim_object_type := CIMInstance; _data := DictData [] |}.

(** The class store and the heap after [create("Foo", <object 0>)]. *)
Definition class_world_Foo : world string :=
  {| self := {| _cim_object_type := CIMClass;
                _data := NocaseData [("Foo", 2)] |};
     objects := [Foo_class; Foo_instance; Foo_class] |}.

(** The instance store and the heap after [create("Foo", <object 1>)]. *)
Definition instance_world_Foo : world string :=
  {| self := {| _cim_object_type := CIMInstance;
                _data := DictData [("Foo", 2)] |};
     objects := [Foo_class; Foo_instance; Foo_instance] |}.

Definition empty_repo : InMemoryRepository string := {| _repository := [] |}.

(** The repository after [add_namespace("/root/Test/")]. *)
Definition repo_test : InMemoryRepository string :=
  {| _repository := [("root/Test", empty_namespace string)] |}.

(** The same repository with one class in the namespace. *)
Definition repo_test_Foo : InMemoryRepository string :=
  {| _repository :=
       [("root/Test",
         {| classes := self class_world_Foo;
            instances := instance_store;
            qualifiers := qualifiers (empty_namespace string) |})] |}.

(** ** More of the object store: iteration and invariants *)

Section object_store_iteration.
Context {K : Type} `{EqDecision K} `{Lower K}.

(** [six.itervalues(self._data)], as the list it runs through *)
Definition data_values (d : data K) : list ref := (data_items d).*2.

(** The body of the loop of [iter_values], for the values still to come:
    each value is yielded, copied first when [copy] is set. *)
Fixpoint yield_values (copy : bool) (values : list ref) : M K heap (list ref) :=
  match values with
  | [] => ret []
  | value :: values' =>
      do o <- (if copy then obj_copy value else ret value);
      do os <- yield_values copy values';
      ret (o :: os)
  end.

(** [list(self.iter_values(copy))]: the generator of [iter_values(self,
    copy=True)], run to its end. *)
Definition iter_values (copy : bool) : M K (world K) (list ref) :=
  do self <- gets self;
  on_objects (yield_values copy (data_values (_data self))).

(** The keys of a store are distinct for the comparison of its dictionary. *)
Definition keys_distinct (st : InMemoryObjectStore K) : Prop :=
  NoDup (data_real_key (_data st) <$> iter_names st).

(** Every object a store refers to is in the heap and is an instance of the
    store's object type. *)
Definition objects_typed (w : world K) : Prop :=
  Forall (λ o, isinstance (objects w) o (_cim_object_type (self w)) = true)
         (data_values (_data (self w))).
End object_store_iteration.

(** ** [InMemoryRepository.print_repository] *)

Section print_repository.
Context {K : Type} `{EqDecision K} `{Lower K} {python : Assertions}.

(** What [objstore_info] puts into its string: the namespace, the name of
    the object store, its length, and the objects formatted one per line. *)
Record store_info := {
  info_namespace : string;
  info_objstore_name : string;
  info_len : nat;
  info_values : list PyObject
}.

(** The lines [print_repository] writes, one constructor per format string,
    with the value formatted into it ([None] where [objstore_info] returned
    [None]). *)
Inductive repository_line :=
  | NAMESPACES_line (namespaces : list string)   (* u'NAMESPACES: {0}' *)
  | QUALIFIERS_line (info : option store_info)   (* u'QUALIFIERS: {0}' *)
  | CLASSES_line (info : option store_info)      (* u'CLASSES: {0}' *)
  | INSTANCES_line (info : option store_info).   (* u'INSTANCES: {0}' *)

(** The repository, the heap of the objects, and what was written to
    [dest]. *)
Record session := {
  repository : InMemoryRepository K;
  session_objects : heap;
  dest : list repository_line
}.

Definition on_repository {A} (m : M K (InMemoryRepository K) A)
  : M K session A :=
  λ s, let (r, repo) := m (repository s) in
       (r, {| repository := repo; session_objects := session_objects s;
              dest := dest s |}).

Definition on_session_objects {A} (m : M K heap A) : M K session A :=
  λ s, let (r, h) := m (session_objects s) in
       (r, {| repository := repository s; session_objects := h;
              dest := dest s |}).

(** [_uprint(dest, line)] *)
Definition uprint (line : repository_line) : M K session unit :=
  modify (λ s, {| repository := repository s;
                  session_objects := session_objects s;
                  dest := dest s ++ [line] |}).

(** Reading an object, as formatting it does. *)
Definition read_object (o : ref) : M K heap PyObject :=
  λ h, match h !! o with
       | Some v => (Return v, h)
       | None => (Stuck, h)
       end.

(** [for val in repo.iter_values(): rtn_str += u'{}\n'.format(val)], for
    the values still to come: each value is copied by the generator, and the
    copy is formatted. *)
Fixpoint format_values (values : list ref) : M K heap (list PyObject) :=
  match values with
  | [] => ret []
  | value :: values' =>
      do val <- obj_copy value;
      do v <- read_object val;
      do vs <- format_values values';
      ret (v :: vs)
  end.

(** The function [objstore_info] inside [print_repository].  The body of
    its loop over the namespaces ends in [return]: it runs for the first
    namespace only, and without a namespace the function returns [None]. *)
Definition objstore_info (objstore_name : string)
  : M K session (option store_info) :=
  do namespaces <- gets (λ s, od_keys (_repository (repository s)));
  match namespaces with
  | [] => ret None
  | ns :: _ =>
      do repo <-
        (if bool_decide (objstore_name = "class") then
           on_repository (get_class_repo (Some ns))
         else if bool_decide (objstore_name = "qualifier") then
           on_repository (get_qualifier_repo (Some ns))
         else if bool_decide (objstore_name = "instance") then
           on_repository (get_instance_repo (Some ns))
         else
           do _ <- assert_ (bool_decide (objstore_name = "instance"));
           on_repository (get_instance_repo (Some ns)));
      let n := len repo in
      do vs <- on_session_objects (format_values (data_values (_data repo)));
      ret (Some {| info_namespace := ns; info_objstore_name := objstore_name;
                   info_len := n; info_values := vs |})
  end.

(** [print_repository(self, dest=None)] *)
Definition print_repository : M K session unit :=
  do namespaces <- gets (λ s, od_keys (_repository (repository s)));
  do _ <- uprint (NAMESPACES_line namespaces);
  do info <- objstore_info "qualifier";
  do _ <- uprint (QUALIFIERS_line info);
  do info <- objstore_info "class";
  do _ <- uprint (CLASSES_line info);
  do info <- objstore_info "instance";
  uprint (INSTANCES_line info).
End print_repository.

Arguments session : clear implicits.

(** ** An invariant of the repository *)

(** The namespace names are normalized and distinct without regard to
    case. *)
Definition names_normalized {K} (repo : InMemoryRepository K) : Prop :=
  NoDup (str_lower <$> namespaces repo)
  ∧ Forall (λ n, strip "/" n = n) (namespaces repo).

(** ** [tests/utils.py]: [import_installed] *)

(** [l.index(x)]; [None] stands for its [ValueError]. *)
Fixpoint py_index (x : string) (l : list string) : option nat :=
  match l with
  | [] => None
  | y :: l' => if decide (y = x) then Some 0 else S <$> py_index x l'
  end.

(** The lines [import_installed] prints, one constructor per message
    template, with the values formatted into it. *)
Inductive debug_line :=
  | Removing_from_path (dirpath : string) (ix : nat)
      (* "Debug: Removing {0} at index {1} from module search path" *)
  | Appending_to_path (dirpath : string)
      (* "Debug: Appending {0} to end of module search path" *)
  | module_newly_loaded (module_name file : string)
      (* "Debug: {0} module newly loaded from: {1}" *)
  | module_already_loaded (module_name file : string).
      (* "Debug: {0} module was already loaded from: {1}" *)

(** [e] together with the proof of what it is, for the equation a loop needs
    to show that it ends. *)
Definition inspect {A} (a : A) : {b | a = b} := exist _ a eq_refl.

Section import_installed.
Context {module error : Type}.

(** [module.__file__]: [None] for a module without the attribute, as the
    modules built into the interpreter are ([sys], for one); reading it then
    raises [AttributeError]. *)
Context (__file__ : module → option string).

(** What the function reads and writes of the interpreter: [sys.path],
    [sys.modules] and the lines printed. *)
Record interpreter := {
  sys_path : list string;
  sys_modules : dict string module;
  stdout : list debug_line
}.

(** [__import__(module_name, level=0)]: the module it returns or the
    exception it raises, and the interpreter it leaves. *)
Context (__import__ : string → interpreter → (module + error) * interpreter).

(** How a call of [import_installed] ends. *)
Inductive import_outcome :=
  | Imported (module0 : module)        (* [return module] *)
  | Import_raised (e : error)          (* the exception of [__import__] *)
  | KeyError_raised                    (* of [sys.modules[module_name]] *)
  | AttributeError_raised (attr : string).
      (* "... has no attribute '{}'", of [module.__file__] *)

Definition with_sys_path (path : list string) (s : interpreter) : interpreter :=
  {| sys_path := path; sys_modules := sys_modules s; stdout := stdout s |}.

(** The value of [os.getenv('TEST_INSTALLED', False)] is a string or, for
    [None] here, [False]. *)
Definition truthy (test_installed : option string) : bool :=
  match test_installed with
  | Some v => negb (bool_decide (v = EmptyString))
  | None => false
  end.

(** [if test_installed == 'DEBUG': print(line)] *)
Definition debug_print (test_installed : option string) (line : debug_line)
    (s : interpreter) : interpreter :=
  if bool_decide (test_installed = Some "DEBUG") then
    {| sys_path := sys_path s; sys_modules := sys_modules s;
       stdout := stdout s ++ [line] |}
  else s.

(** The first block under [if test_installed:], "Remove '' directory". *)
Definition remove_empty_dirpath (test_installed : option string)
    (s : interpreter) : interpreter :=
  let dirpath := EmptyString in
  match py_index dirpath (sys_path s) with
  | None => s
  | Some ix =>
      let s := debug_print test_installed (Removing_from_path dirpath ix) s in
      with_sys_path (base.delete ix (sys_path s)) s
  end.

(** The [while True] loop, "Move CWD to end". *)
Equations? move_to_end (test_installed : option string) (dirpath : string)
    (s : interpreter) : interpreter by wf (List.length (sys_path s)) lt :=
move_to_end test_installed dirpath s
    with inspect (py_index dirpath (sys_path s)) := {
  | exist _ None _ =>
      let s := debug_print test_installed (Appending_to_path dirpath) s in
      with_sys_path (sys_path s ++ [dirpath]) s
  | exist _ (Some ix) E =>
      if decide (ix = List.length (sys_path s) - 1) then s
      else
        move_to_end test_installed dirpath
          (with_sys_path (base.delete ix (sys_path s))
             (debug_print test_installed (Removing_from_path dirpath ix) s)) }.
Proof.
  assert (ix < List.length (sys_path s)) as Hix.
  { clear -E. revert ix E.
    induction (sys_path s) as [|y l IH]; intros ix; cbn; [done |].
    case_decide; [intros [= <-]; lia |].
    destruct (py_index dirpath l); cbn; [| done].
    intros [= <-]. specialize (IH _ eq_refl). lia. }
  unfold debug_print.
  case_bool_decide; cbn; rewrite length_delete;
    try lia; apply lookup_lt_is_Some_2; lia.
Qed.

(** The end of both branches:
    [if test_installed == 'DEBUG': print(template.format(module_name,
    module.__file__))], and then [return module].  The attribute is read
    only when the line is printed, and before anything is printed. *)
Definition print_file_and_return (test_installed : option string)
    (template : string → debug_line) (module0 : module) (s : interpreter)
  : import_outcome * interpreter :=
  if bool_decide (test_installed = Some "DEBUG") then
    match __file__ module0 with
    | Some file => (Imported module0, debug_print test_installed (template file) s)
    | None => (AttributeError_raised "__file__", s)
    end
  else (Imported module0, s).

(** [import_installed(module_name)], with the value of the environment
    variable [TEST_INSTALLED] and the current directory [os.getcwd()]. *)
Definition import_installed (test_installed : option string) (cwd : string)
    (module_name : string) (s : interpreter) : import_outcome * interpreter :=
  let s :=
    if truthy test_installed then
      move_to_end test_installed cwd (remove_empty_dirpath test_installed s)
    else s in
  if negb (od_contains id module_name (sys_modules s)) then
    match __import__ module_name s with
    | (inl module0, s) =>
        print_file_and_return test_installed
          (module_newly_loaded module_name) module0 s
    | (inr e, s) => (Import_raised e, s)
    end
  else
    match od_getitem id module_name (sys_modules s) with
    | Some module0 =>
        print_file_and_return test_installed
          (module_already_loaded module_name) module0 s
    | None => (KeyError_raised, s)
    end.
End import_installed.

Arguments interpreter : clear implicits.
Arguments import_outcome : clear implicits.

(** An interpreter in the current directory ["/cwd"], with modules given by
    the file they were loaded from, if any ([sys] is built in and has no
    [__file__]), and an [__import__] that finds no module and raises with
    the name it was given. *)
Definition sample_interpreter : interpreter (option string) :=
  {| sys_path := [EmptyString; "/cwd"; "/usr/lib"; EmptyString; "/cwd"];
     sys_modules := [("pywbem", Some "/cwd/pywbem/__init__.py"); ("sys", None)];
     stdout := [] |}.

Definition no_import (module_name : string) (s : interpreter (option string))
  : (option string + string) * interpreter (option string) :=
  (inr module_name, s).

(** * Properties *)

(** ** Strings *)

Lemma ascii_lower_slash (c : ascii) :
  char_in (ascii_lower c) "/" = char_in c "/".
Proof.
  destruct c as [[] [] [] [] [] [] [] []]; reflexivity.
Qed.

Lemma lstrip_lower (s : string) :
  str_lower (lstrip "/" s) = lstrip "/" (str_lower s).
Proof.
  induction s as [|c s IH]; [done |].
  cbn [lstrip str_lower]. rewrite ascii_lower_slash.
  destruct (char_in c "/"); [exact IH | done].
Qed.

Lemma rstrip_lower (s : string) :
  str_lower (rstrip "/" s) = rstrip "/" (str_lower s).
Proof.
  induction s as [|c s IH]; [done |].
  cbn [rstrip str_lower]. rewrite <- IH, ascii_lower_slash.
  destruct (rstrip "/" s); cbn [str_lower]; [| done].
  destruct (char_in c "/"); done.
Qed.

Lemma strip_lower (s : string) :
  str_lower (strip "/" s) = strip "/" (str_lower s).
Proof. unfold strip. by rewrite rstrip_lower, lstrip_lower. Qed.

(** What is left of [lstrip] does not start with a stripped character. *)
Lemma lstrip_head chars s c t :
  lstrip chars s = String c t → char_in c chars = false.
Proof.
  induction s as [|d s IH]; [done |].
  cbn [lstrip]. destruct (char_in d chars) eqn:E; [exact IH |].
  intros [= -> ->]. exact E.
Qed.

(** [rstrip] keeps the first character of what it leaves. *)
Lemma rstrip_head chars s c t :
  rstrip chars s = String c t → ∃ t', s = String c t'.
Proof.
  destruct s as [|d s]; [done |].
  cbn [rstrip]. destruct (rstrip chars s).
  - destruct (char_in d chars); [done |]. intros [= -> _]. by eexists.
  - intros [= -> _]. by eexists.
Qed.

Lemma rstrip_idemp chars s : rstrip chars (rstrip chars s) = rstrip chars s.
Proof.
  induction s as [|c s IH]; [done |].
  cbn [rstrip]. destruct (rstrip chars s) as [|d r] eqn:E.
  - destruct (char_in c chars) eqn:Ec; [done |].
    cbn [rstrip]. by rewrite Ec.
  - cbn [rstrip]. cbn [rstrip] in IH.
    destruct (rstrip chars r) eqn:Er.
    + destruct (char_in d chars); [done |]. by rewrite IH.
    + by rewrite IH.
Qed.

Lemma lstrip_fixed chars c t :
  char_in c chars = false → lstrip chars (String c t) = String c t.
Proof. intros E. cbn [lstrip]. by rewrite E. Qed.

Lemma strip_idemp chars s : strip chars (strip chars s) = strip chars s.
Proof.
  unfold strip.
  destruct (rstrip chars (lstrip chars s)) as [|c t] eqn:E; [done |].
  destruct (rstrip_head _ _ _ _ E) as [t' Ht'].
  rewrite lstrip_fixed by (eapply lstrip_head, Ht').
  rewrite <- E. apply rstrip_idemp.
Qed.

(** [lstrip] removes a prefix made of stripped characters only. *)
Lemma lstrip_prefix chars s :
  ∃ l, s = (l ++ lstrip chars s)%string ∧ all_in chars l = true.
Proof.
  induction s as [|c s (l & Hl & Hall)]; [by exists EmptyString |].
  cbn [lstrip]. destruct (char_in c chars) eqn:E.
  - exists (String c l). split.
    + change (String c s = String c (l ++ lstrip chars s)%string). by rewrite <- Hl.
    + cbn [all_in]. by rewrite E, Hall.
  - by exists EmptyString.
Qed.

(** [rstrip] removes a suffix made of stripped characters only. *)
Lemma rstrip_suffix chars s :
  ∃ r, s = (rstrip chars s ++ r)%string ∧ all_in chars r = true.
Proof.
  induction s as [|c s (r & Hr & Hall)]; [by exists EmptyString |].
  cbn [rstrip]. destruct (rstrip chars s) as [|d t] eqn:E.
  - change (s = r) in Hr. subst r.
    destruct (char_in c chars) eqn:Ec.
    + exists (String c s). split; [done |]. cbn [all_in]. by rewrite Ec, Hall.
    + by exists s.
  - exists r. split; [| done].
    change (String c s = String c (String d t ++ r)%string). by rewrite <- Hr.
Qed.

(** What is left of [rstrip] does not end with a stripped character. *)
Lemma rstrip_last chars s t c :
  rstrip chars s = (t ++ String c EmptyString)%string → char_in c chars = false.
Proof.
  revert t. induction s as [|d s IH]; intros t.
  - destruct t; discriminate.
  - cbn [rstrip]. destruct (rstrip chars s) as [|e r] eqn:E.
    + destruct (char_in d chars) eqn:Ed; [destruct t; discriminate |].
      destruct t as [|x [|y t]]; cbn; try discriminate.
      by intros [= ->].
    + destruct t as [|x t]; cbn; [discriminate |].
      intros [= -> Hr]. by eapply IH.
Qed.

(** [strip] is exactly the removal of the leading and the trailing stripped
    characters. *)
Lemma strip_spec chars s :
  (∃ l r, s = (l ++ strip chars s ++ r)%string
          ∧ all_in chars l = true ∧ all_in chars r = true)
  ∧ (∀ c t, strip chars s = String c t → char_in c chars = false)
  ∧ (∀ t c, strip chars s = (t ++ String c EmptyString)%string → char_in c chars = false).
Proof.
  unfold strip. split; [| split].
  - destruct (lstrip_prefix chars s) as (l & Hl & Hall).
    destruct (rstrip_suffix chars (lstrip chars s)) as (r & Hr & Hall').
    exists l, r. by rewrite <- Hr, <- Hl.
  - intros c t E. destruct (rstrip_head _ _ _ _ E) as [t' Ht'].
    by eapply lstrip_head.
  - intros t c. apply rstrip_last.
Qed.

(** ** Dictionaries *)

Section ordered_dict_facts.
Context {K V : Type} `{EqDecision K} (real_key : K → K).
Implicit Types (k : K) (v : V) (d : list (K * V)).

Local Abbreviation contains := (od_contains real_key).
Local Abbreviation getitem := (od_getitem real_key).
Local Abbreviation setitem := (od_setitem real_key).
Local Abbreviation delitem := (od_delitem real_key).

Lemma same_key_true k k' :
  same_key real_key k k' = true ↔ real_key k = real_key k'.
Proof. unfold same_key. apply bool_decide_eq_true. Qed.

Lemma same_key_false k k' :
  same_key real_key k k' = false ↔ real_key k ≠ real_key k'.
Proof. unfold same_key. apply bool_decide_eq_false. Qed.

Lemma same_key_trans_r k k1 k2 :
  real_key k1 = real_key k2 →
  same_key real_key k k1 = same_key real_key k k2.
Proof. unfold same_key. by intros ->. Qed.

Lemma same_key_trans_l k k1 k2 :
  real_key k1 = real_key k2 →
  same_key real_key k1 k = same_key real_key k2 k.
Proof. unfold same_key. by intros ->. Qed.

(** Keys that fold to the same key are the same key for a dictionary. *)
Lemma od_contains_real_key k1 k2 d :
  real_key k1 = real_key k2 → contains k1 d = contains k2 d.
Proof.
  intros E. induction d as [|[k v] d IH]; [done |].
  cbn. by rewrite IH, (same_key_trans_r _ _ _ E).
Qed.

Lemma od_getitem_real_key k1 k2 d :
  real_key k1 = real_key k2 → getitem k1 d = getitem k2 d.
Proof.
  intros E. induction d as [|[k v] d IH]; [done |].
  cbn. by rewrite IH, (same_key_trans_r _ _ _ E).
Qed.

(** [k in d] holds exactly when [d[k]] has a value. *)
Lemma od_contains_getitem k d :
  contains k d = true ↔ is_Some (getitem k d).
Proof.
  induction d as [|[k' v] d IH]; cbn.
  - split; [done | by intros [? ?]].
  - destruct (same_key real_key k' k); cbn; [| exact IH].
    split; [by eexists | done].
Qed.

Lemma od_not_contains_getitem k d :
  contains k d = false ↔ getitem k d = None.
Proof.
  rewrite <- not_true_iff_false, od_contains_getitem.
  by rewrite eq_None_not_Some.
Qed.

Lemma od_contains_elem k d :
  contains k d = true ↔ ∃ k', k' ∈ od_keys d ∧ real_key k' = real_key k.
Proof.
  unfold od_keys. induction d as [|[k' v] d IH]; cbn.
  - split; [done | intros (? & Hin & _); by apply elem_of_nil in Hin].
  - rewrite orb_true_iff, IH, same_key_true. split.
    + intros [E | (k0 & Hin & E)].
      * exists k'. split; [left | done].
      * exists k0. split; [by right | done].
    + intros (k0 & Hin & E). apply elem_of_cons in Hin as [-> | Hin].
      * by left.
      * right. by exists k0.
Qed.

Lemma od_getitem_setitem k k' v d :
  getitem k' (setitem k v d) =
    if same_key real_key k k' then Some v else getitem k' d.
Proof.
  induction d as [|[k0 v0] d IH]; cbn.
  - by destruct (same_key real_key k k').
  - destruct (same_key real_key k0 k) eqn:E0; cbn.
    + apply same_key_true in E0.
      rewrite (same_key_trans_l k' _ _ E0).
      by destruct (same_key real_key k k').
    + rewrite IH. destruct (same_key real_key k0 k') eqn:E1; [| done].
      destruct (same_key real_key k k') eqn:E2; [| done].
      apply same_key_true in E1, E2. apply same_key_false in E0.
      congruence.
Qed.

Lemma od_contains_setitem k k' v d :
  contains k' (setitem k v d) = same_key real_key k k' || contains k' d.
Proof.
  apply eq_true_iff_eq.
  rewrite od_contains_getitem, od_getitem_setitem, orb_true_iff,
    od_contains_getitem.
  destruct (same_key real_key k k'); split; eauto.
  by intros [? | ?].
Qed.

Lemma od_setitem_absent k v d :
  contains k d = false → setitem k v d = d ++ [(k, v)].
Proof.
  induction d as [|[k0 v0] d IH]; cbn; [done |].
  intros [E0 Hd]%orb_false_iff. by rewrite E0, IH.
Qed.

Lemma od_getitem_delitem k k' d :
  getitem k' (delitem k d) =
    if same_key real_key k k' then None else getitem k' d.
Proof.
  induction d as [|[k0 v0] d IH]; cbn.
  - by destruct (same_key real_key k k').
  - destruct (same_key real_key k0 k) eqn:E0; cbn.
    + rewrite IH. apply same_key_true in E0.
      rewrite (same_key_trans_l k' _ _ E0).
      by destruct (same_key real_key k k').
    + rewrite IH. destruct (same_key real_key k0 k') eqn:E1; [| done].
      destruct (same_key real_key k k') eqn:E2; [| done].
      apply same_key_true in E1, E2. apply same_key_false in E0.
      congruence.
Qed.

Lemma od_contains_delitem k k' d :
  contains k' (delitem k d) = negb (same_key real_key k k') && contains k' d.
Proof.
  apply eq_true_iff_eq.
  rewrite od_contains_getitem, od_getitem_delitem, andb_true_iff,
    od_contains_getitem.
  destruct (same_key real_key k k'); cbn; split; try tauto.
  - by intros [? ?].
  - by intros [? ?].
Qed.

(** After [del d[k]] no key of [d] folds to the key [k] folds to. *)
Lemma od_keys_delitem k k' d :
  k' ∈ od_keys (delitem k d) → real_key k' ≠ real_key k.
Proof.
  intros Hin E.
  assert (contains k (delitem k d) = true) as Hc
    by (apply od_contains_elem; eauto).
  rewrite od_contains_delitem in Hc.
  unfold same_key in Hc. by rewrite bool_decide_eq_true_2 in Hc.
Qed.
End ordered_dict_facts.

(** ** The object store *)

Section object_store_facts.
Context {K : Type} `{EqDecision K} `{Lower K} {python : Assertions}.
Implicit Types (st : InMemoryObjectStore K) (h : heap) (name : K) (o : ref).

Lemma data_contains_getitem name (d : data K) :
  data_contains name d = true ↔ is_Some (data_getitem name d).
Proof. apply od_contains_getitem. Qed.

Lemma data_not_contains_getitem name (d : data K) :
  data_contains name d = false ↔ data_getitem name d = None.
Proof. apply od_not_contains_getitem. Qed.

Lemma data_getitem_setitem name name' o (d : data K) :
  data_getitem name' (data_setitem name o d) =
    if same_key (data_real_key d) name name' then Some o
    else data_getitem name' d.
Proof. destruct d; apply od_getitem_setitem. Qed.

Lemma data_contains_setitem name name' o (d : data K) :
  data_contains name' (data_setitem name o d) =
    same_key (data_real_key d) name name' || data_contains name' d.
Proof. destruct d; apply od_contains_setitem. Qed.

Lemma data_contains_delitem name name' (d : data K) :
  data_contains name' (data_delitem name d) =
    negb (same_key (data_real_key d) name name') && data_contains name' d.
Proof. destruct d; apply od_contains_delitem. Qed.

(** *** The methods, case by case *)

Lemma get_eq st h name (copy : bool) :
  get name copy {| self := st; objects := h |} =
    match data_getitem name (_data st) with
    | None =>
        (Raise (KeyError (not_in_object_store name (_cim_object_type st))),
         {| self := st; objects := h |})
    | Some o =>
        if copy then
          match h !! o with
          | Some v => (Return (List.length h),
                       {| self := st; objects := h ++ [v] |})
          | None => (Stuck, {| self := st; objects := h |})
          end
        else (Return o, {| self := st; objects := h |})
    end.
Proof.
  unfold get, bind, gets, self_data_getitem, bind, gets, on_objects,
    obj_copy, ret, raise. cbn.
  destruct (data_getitem name (_data st)) as [o|] eqn:E.
  - assert (data_contains name (_data st) = true) as ->
      by (apply data_contains_getitem; eauto).
    destruct copy; cbn; rewrite E; [| done]. cbn.
    by destruct (h !! o).
  - apply data_not_contains_getitem in E. by rewrite E.
Qed.

(** The assertion of [create] and [update] fires when assertions are
    enabled and the object is not of the store's type. *)
Lemma create_eq st h name o :
  create name o {| self := st; objects := h |} =
    if __debug__ && negb (isinstance h o (_cim_object_type st)) then
      (Raise (AssertionError None), {| self := st; objects := h |})
    else if exists_ st name then
      (Raise (ValueError
                (already_in_object_store name (_cim_object_type st))),
       {| self := st; objects := h |})
    else
      match h !! o with
      | Some v => (Return tt, {| self := stored st name (List.length h);
                                 objects := h ++ [v] |})
      | None => (Stuck, {| self := st; objects := h |})
      end.
Proof.
  unfold create, bind, gets, assert_, on_objects, obj_copy,
    self_data_setitem, modify, ret, raise, exists_. cbn.
  destruct __debug__, (isinstance h o (_cim_object_type st)); cbn; try done;
    (destruct (data_contains name (_data st)); [done |]);
    simpl; by destruct (h !! o).
Qed.

Lemma update_eq st h name o :
  update name o {| self := st; objects := h |} =
    if __debug__ && negb (isinstance h o (_cim_object_type st)) then
      (Raise (AssertionError None), {| self := st; objects := h |})
    else if exists_ st name then
      match h !! o with
      | Some v => (Return tt, {| self := stored st name (List.length h);
                                 objects := h ++ [v] |})
      | None => (Stuck, {| self := st; objects := h |})
      end
    else
      (Raise (KeyError (not_in_object_store name (_cim_object_type st))),
       {| self := st; objects := h |}).
Proof.
  unfold update, bind, gets, assert_, on_objects, obj_copy,
    self_data_setitem, modify, ret, raise, exists_. cbn.
  destruct __debug__, (isinstance h o (_cim_object_type st)); cbn; try done;
    (destruct (data_contains name (_data st)); [| done]);
    simpl; by destruct (h !! o).
Qed.

Lemma delete_eq st h name :
  delete name {| self := st; objects := h |} =
    if exists_ st name then
      (Return tt,
       {| self := {| _cim_object_type := _cim_object_type st;
                     _data := data_delitem name (_data st) |};
          objects := h |})
    else
      (Raise (KeyError (not_in_object_store name (_cim_object_type st))),
       {| self := st; objects := h |}).
Proof.
  unfold delete, bind, gets, self_data_delitem, modify, raise, exists_. cbn.
  by destruct (data_contains name (_data st)).
Qed.

Lemma isinstance_Some h o t :
  isinstance h o t = true → ∃ v, h !! o = Some v ∧ ob_type v = t.
Proof.
  unfold isinstance. destruct (h !! o) as [v|]; [| done].
  intros E%bool_decide_eq_true. by exists v.
Qed.

Lemma stored_getitem st name o :
  data_getitem name (_data (stored st name o)) = Some o.
Proof.
  cbn. rewrite data_getitem_setitem.
  unfold same_key. by rewrite bool_decide_eq_true_2.
Qed.

Lemma lookup_snoc h (v : PyObject) : (h ++ [v]) !! List.length h = Some v.
Proof. by apply list_lookup_middle. Qed.

(** C1.  In every object store, for every name that is not present: once
    [create(name, O)] has returned, [get(name)] (with [copy] left at
    [True]) returns an object equal to [O]; the object it returns is a new
    one, neither [O] nor the object the store keeps, and whatever is done
    to it, the next [get(name)] on the store again returns an object equal
    to [O]. *)
Theorem create_get_roundtrip st h name O w1 :
  exists_ st name = false →
  create name O {| self := st; objects := h |} = (Return tt, w1) →
  ∃ v, h !! O = Some v ∧
  ∃ r w2, get name true w1 = (Return r, w2)
    ∧ objects w2 !! r = Some v
    ∧ self w2 = self w1
    ∧ r ≠ O
    ∧ data_getitem name (_data (self w1)) ≠ Some r
    ∧ ∀ v', mutate r v' (objects w2) !! r = Some v'
        ∧ ∃ r' w3,
            get name true {| self := self w2;
                             objects := mutate r v' (objects w2) |}
              = (Return r', w3)
            ∧ objects w3 !! r' = Some v.
Proof.
  intros Hnew Hcreate. rewrite create_eq, Hnew in Hcreate.
  destruct (__debug__ && _); [done |].
  destruct (h !! O) as [v|] eqn:HO; [| done].
  injection Hcreate as <-. exists v. split; [done |].
  rewrite get_eq, stored_getitem, lookup_snoc.
  eexists _, _. split; [done |]. cbn [objects self].
  assert (O < List.length h) as HOlt by (by eapply lookup_lt_Some).
  split; [apply lookup_snoc |]. split; [done |].
  split; [rewrite length_app; cbn; lia |].
  split; [rewrite stored_getitem, length_app; cbn; intros [=]; lia |].
  intros v'. split.
  - unfold mutate. apply list_lookup_insert_eq.
    rewrite !length_app. cbn. lia.
  - rewrite get_eq, stored_getitem. unfold mutate.
    rewrite list_lookup_insert_ne by (rewrite length_app; cbn; lia).
    rewrite lookup_app_l by (rewrite length_app; cbn; lia).
    rewrite lookup_snoc. eexists _, _. split; [done |].
    cbn [objects]. apply lookup_snoc.
Qed.

(** C2.  In every object store and for every name: [get], [update] and
    [delete] raise [KeyError] (not found) exactly when the name is not in
    the store, and [create] raises [ValueError] (already exists) exactly
    when it is, for every object of the store's type handed to [create] or
    [update].  When they do not fail, [create] and [update] keep under the
    name a new object, equal to the one that was given, and touch no
    other object. *)
Theorem store_errors_exactly st h name :
  let w := {| self := st; objects := h |} in
  (∀ copy, raised (get name copy) w is_KeyError = negb (exists_ st name))
  ∧ raised (delete name) w is_KeyError = negb (exists_ st name)
  ∧ ∀ o, isinstance h o (_cim_object_type st) = true →
      raised (update name o) w is_KeyError = negb (exists_ st name)
      ∧ raised (create name o) w is_ValueError = exists_ st name
      ∧ ∃ v r, h !! o = Some v ∧ r ≠ o ∧ h !! r = None
          ∧ let w' := {| self := stored st name r; objects := h ++ [v] |} in
            (exists_ st name = false → create name o w = (Return tt, w'))
            ∧ (exists_ st name = true → update name o w = (Return tt, w'))
            ∧ data_getitem name (_data (self w')) = Some r
            ∧ objects w' !! r = Some v.
Proof.
  intros w. unfold raised, w. split; [| split].
  - intros copy. rewrite get_eq. unfold exists_.
    destruct (data_getitem name (_data st)) as [o|] eqn:E.
    + assert (data_contains name (_data st) = true) as ->
        by (apply data_contains_getitem; eauto).
      destruct copy; [| done]. by destruct (h !! o).
    + apply data_not_contains_getitem in E. by rewrite E.
  - rewrite delete_eq. by destruct (exists_ st name).
  - intros o Hty. rewrite update_eq, create_eq, Hty, andb_false_r.
    destruct (isinstance_Some _ _ _ Hty) as (v & Hv & _). rewrite Hv.
    split; [by destruct (exists_ st name) |].
    split; [by destruct (exists_ st name) |].
    exists v, (List.length h).
    assert (o < List.length h) as Hlt by (by eapply lookup_lt_Some).
    split; [done |]. split; [lia |].
    split; [by apply lookup_ge_None |]. cbn zeta. cbn [self objects].
    split; [by intros -> |]. split; [by intros -> |].
    split; [apply stored_getitem | apply lookup_snoc].
Qed.


(** C10.  A store operation that fails leaves everything as it was: when
    [create] raises [ValueError] (already exists), or [update] or [delete]
    raises [KeyError] (not found), the state after the call, the store
    with its keys and the objects they refer to, is the state before it. *)
Theorem failure_leaves_store_unchanged (w : world K) name o :
  (∀ e w', create name o w = (Raise e, w') → is_ValueError e = true →
     w' = w ∧ exists_ (self w) name = true)
  ∧ (∀ e w', update name o w = (Raise e, w') → is_KeyError e = true →
       w' = w ∧ exists_ (self w) name = false)
  ∧ (∀ e w', delete name w = (Raise e, w') → is_KeyError e = true →
       w' = w ∧ exists_ (self w) name = false).
Proof.
  destruct w as [st h]. cbn [self]. split; [| split]; intros e w'.
  - rewrite create_eq.
    destruct (__debug__ && _); [by intros [= <- <-] |].
    destruct (exists_ st name); [by intros [= <- <-] |].
    by destruct (h !! o).
  - rewrite update_eq.
    destruct (__debug__ && _); [by intros [= <- <-] |].
    destruct (exists_ st name); [| by intros [= <- <-]].
    by destruct (h !! o).
  - rewrite delete_eq.
    destruct (exists_ st name); [done | by intros [= <- <-]].
Qed.

(** *** The constructor *)

Lemma init_cases {S} t (s : S) :
  InMemoryObjectStore_init (K := K) t s =
    if bool_decide (__name__ t ∈ ["CIMClass"; "CIMQualifierDeclaration"]) then
      (Return (Store {| _cim_object_type := t; _data := NocaseData [] |}), s)
    else if bool_decide (__name__ t = "CIMInstance") then
      (Return (Store {| _cim_object_type := t; _data := DictData [] |}), s)
    else if __debug__ then
      (Raise (AssertionError (Some (invalid_input_parameter t))), s)
    else (Return (Without_data t), s).
Proof.
  unfold InMemoryObjectStore_init. repeat case_bool_decide; try done.
  unfold bind, assert_msg, raise, ret. by destruct __debug__.
Qed.

(** For the three CIM object types the constructor leaves a store, with
    assertions and without. *)
Lemma init_initialized {S} t (s : S) :
  t ∈ [CIMClass; CIMInstance; CIMQualifierDeclaration] →
  ∃ st, InMemoryObjectStore_init (K := K) t s = (Return (Store st), s)
        ∧ (do o <- InMemoryObjectStore_init t; initialized o) s
          = (Return st, s)
        ∧ _cim_object_type st = t ∧ len st = 0.
Proof.
  intros Ht. unfold bind. rewrite init_cases.
  repeat match goal with
    | H : _ ∈ _ :: _ |- _ => apply elem_of_cons in H as [-> | H]
    | H : _ ∈ [] |- _ => by apply elem_of_nil in H
    end; eexists; done.
Qed.

(** *** The invariant *)

Lemma init_store_inv {S} t (s s' : S) st :
  InMemoryObjectStore_init t s = (Return (Store st), s') →
  s' = s ∧ _cim_object_type st = t ∧ store_inv st = true ∧ len st = 0.
Proof.
  unfold InMemoryObjectStore_init.
  repeat case_bool_decide;
    [| | unfold bind, assert_msg, raise, ret; by destruct __debug__];
    intros [= <- <-]; unfold store_inv, InMemoryObjectStore_init; cbn;
    repeat ((rewrite bool_decide_eq_true_2 by done)
            || (rewrite bool_decide_eq_false_2 by done)); done.
Qed.

Lemma store_inv_preserved (w w' : world K) name o r :
  create name o w = (r, w') ∨ update name o w = (r, w')
    ∨ delete name w = (r, w') →
  store_inv (self w') = store_inv (self w).
Proof.
  destruct w as [st h].
  rewrite create_eq, update_eq, delete_eq. cbn [self].
  assert (∀ d, store_inv {| _cim_object_type := _cim_object_type st;
                            _data := data_with_items (_data st) d |}
               = store_inv st) as Hinv.
  { intros d. unfold store_inv. cbn.
    destruct (InMemoryObjectStore_init _ _) as [[st0| |] ?]; [| done..].
    by destruct (_data st). }
  intros [E | [E | E]]; revert E;
    repeat match goal with
      | |- context [if ?b then _ else _] => destruct b
      | |- context [match ?x with Some _ => _ | None => _ end] => destruct x
      end; intros [= <- <-]; try done; apply Hinv.
Qed.

(** A class store or a qualifier declaration store holds a [NocaseDict],
    an instance store a [dict]. *)
Lemma store_inv_real_key st :
  store_inv st = true →
  (__name__ (_cim_object_type st) ∈ ["CIMClass"; "CIMQualifierDeclaration"]
     → data_real_key (_data st) = lower)
  ∧ (__name__ (_cim_object_type st) = "CIMInstance"
     → data_real_key (_data st) = id).
Proof.
  unfold store_inv, InMemoryObjectStore_init.
  repeat case_bool_decide; cbn; try done.
  - destruct (_data st); [| done]. intros _. split; [done |].
    intros E. rewrite E in *.
    repeat match goal with
      | H : _ ∈ _ :: _ |- _ => apply elem_of_cons in H as [? | H]
      | H : _ ∈ [] |- _ => by apply elem_of_nil in H
      end; discriminate.
  - destruct (_data st); [done |]. by intros _.
Qed.

(** C3.  A class store and a qualifier declaration store compare names
    without regard to case: once [create(N, O)] has returned, every name
    that differs from [N] in case only exists in the store, [get] returns
    for it what it returns for [N], and [create] under it raises
    [ValueError] (already exists).  An instance store compares keys as they
    are: after [create(N, O)] its keys are the keys it had, followed by
    [N]; a key exists exactly when it is one of them, so [N] itself and the
    keys that existed before exist and no other does; for a key that is
    none of them, whatever it has in common with one, [exists] is false and
    [get] raises [KeyError] (not found). *)
Theorem key_comparison st h N O w1 :
  store_inv st = true →
  create N O {| self := st; objects := h |} = (Return tt, w1) →
  (__name__ (_cim_object_type st) ∈ ["CIMClass"; "CIMQualifierDeclaration"] →
     ∀ N', lower N' = lower N →
       exists_ (self w1) N' = true
       ∧ (∀ copy, returned (get N copy) w1 = true
                  ∧ get N' copy w1 = get N copy w1)
       ∧ (∀ O', isinstance (objects w1) O' (_cim_object_type st) = true →
            create N' O' w1 =
              (Raise (ValueError
                 (already_in_object_store N' (_cim_object_type st))), w1)))
  ∧ (__name__ (_cim_object_type st) = "CIMInstance" →
     iter_names (self w1) = iter_names st ++ [N]
     ∧ ∀ N',
         (exists_ (self w1) N' = true ↔ N' = N ∨ exists_ st N' = true)
         ∧ (exists_ (self w1) N' = true ↔ N' ∈ iter_names (self w1))
         ∧ (N' ∉ iter_names (self w1) →
              exists_ (self w1) N' = false
              ∧ ∀ copy,
                  get N' copy w1 =
                    (Raise (KeyError
                       (not_in_object_store N' (_cim_object_type st))), w1))).
Proof.
  intros Hinv Hcreate. rewrite create_eq in Hcreate.
  destruct (__debug__ && _); [done |].
  destruct (exists_ st N) eqn:Hnew; [done |].
  destruct (h !! O) as [v|] eqn:HO; [| done].
  injection Hcreate as <-.
  destruct (store_inv_real_key _ Hinv) as [Hnocase Hexact].
  cbn [self objects]. split.
  - intros Hcls N' HN'. specialize (Hnocase Hcls).
    assert (exists_ (stored st N (List.length h)) N' = true) as Hex.
    { unfold exists_. cbn. rewrite data_contains_setitem, Hnocase.
      unfold same_key. by rewrite bool_decide_eq_true_2. }
    assert (data_getitem N' (_data (stored st N (List.length h)))
            = Some (List.length h)) as Hget.
    { cbn. rewrite data_getitem_setitem, Hnocase.
      unfold same_key. by rewrite bool_decide_eq_true_2. }
    split; [done |]. split.
    + intros copy. unfold returned.
      rewrite !get_eq, Hget, stored_getitem, lookup_snoc.
      by destruct copy.
    + intros O' HO'. rewrite create_eq, Hex.
      change (_cim_object_type (stored st N (List.length h)))
        with (_cim_object_type st).
      by rewrite HO', andb_false_r.
  - intros Hinst. specialize (Hexact Hinst).
    assert (∀ N', exists_ (stored st N (List.length h)) N' = true
                  ↔ N' = N ∨ exists_ st N' = true) as Hexists.
    { intros N'. unfold exists_. cbn.
      rewrite data_contains_setitem, Hexact.
      rewrite orb_true_iff, same_key_true. unfold id.
      split; (intros [E | E]; [by left | by right]). }
    assert (∀ (s : InMemoryObjectStore K) N',
              data_real_key (_data s) = id →
              exists_ s N' = true ↔ N' ∈ iter_names s) as Hkeys.
    { intros s N' Hid. unfold exists_, data_contains, iter_names.
      rewrite Hid, od_contains_elem. unfold id. split.
      - by intros (? & Hin & ->).
      - intros Hin. by exists N'. }
    assert (iter_names (stored st N (List.length h)) = iter_names st ++ [N])
      as Hnames.
    { unfold iter_names, stored, data_setitem. cbn [_data].
      replace (data_items (data_with_items (_data st)
                 (od_setitem (data_real_key (_data st)) N (List.length h)
                    (data_items (_data st)))))
        with (od_setitem (data_real_key (_data st)) N (List.length h)
                (data_items (_data st)))
        by (by destruct (_data st)).
      rewrite od_setitem_absent by exact Hnew.
      unfold od_keys. by rewrite fmap_app. }
    assert (data_real_key (_data (stored st N (List.length h))) = id) as Hid.
    { cbn. by destruct (_data st). }
    split; [exact Hnames |]. intros N'.
    split; [apply Hexists |]. split; [by apply Hkeys |].
    intros Hnotin.
    assert (exists_ (stored st N (List.length h)) N' = false) as Habsent.
    { apply not_true_iff_false. intros E. by apply Hkeys in E. }
    split; [exact Habsent |]. intros copy. rewrite get_eq.
    by rewrite (proj1 (data_not_contains_getitem _ _) Habsent).
Qed.
End object_store_facts.

(** ** The repository *)

Section repository_facts.
Context {K : Type} `{EqDecision K} `{Lower K} {python : Assertions}.
Implicit Types (repo : InMemoryRepository K) (ns : string).
Implicit Types
  (acc : option string → M K (InMemoryRepository K) (InMemoryObjectStore K))
  (field : namespace_dict K → InMemoryObjectStore K) (k : store_key).

Lemma validate_namespace_eq repo ns :
  validate_namespace (Some ns) repo =
    if has_namespace repo ns then (Return tt, repo)
    else (Raise (KeyError (namespace_does_not_exist (strip "/" ns))), repo).
Proof.
  unfold validate_namespace, has_namespace, bind, gets, str_strip, ret, raise.
  cbn.
  destruct (od_getitem lower (strip "/" ns) (_repository repo)) eqn:E.
  - assert (od_contains lower (strip "/" ns) (_repository repo) = true) as ->
      by (apply od_contains_getitem; eauto).
    done.
  - apply od_not_contains_getitem in E. by rewrite E.
Qed.

Lemma has_namespace_strip repo ns :
  has_namespace repo (strip "/" ns) = has_namespace repo ns.
Proof. unfold has_namespace. by rewrite strip_idemp. Qed.

Lemma accessor_eq field repo ns :
  (do namespace <- str_strip (Some ns) "/";
   do _ <- validate_namespace (Some namespace);
   do d <- repository_getitem namespace;
   ret (field d)) repo =
    match od_getitem lower (strip "/" ns) (_repository repo) with
    | Some d => (Return (field d), repo)
    | None =>
        (Raise (KeyError (namespace_does_not_exist (strip "/" ns))), repo)
    end.
Proof.
  unfold bind at 1, str_strip at 1, ret at 1. cbv beta iota.
  unfold bind at 1.
  rewrite validate_namespace_eq, has_namespace_strip, strip_idemp.
  unfold has_namespace, repository_getitem, bind, gets, ret, raise.
  destruct (od_getitem lower (strip "/" ns) (_repository repo)) eqn:E.
  - assert (od_contains lower (strip "/" ns) (_repository repo) = true) as ->
      by (apply od_contains_getitem; eauto).
    by rewrite E.
  - apply od_not_contains_getitem in E. by rewrite E.
Qed.

Lemma get_class_repo_eq repo ns :
  get_class_repo (Some ns) repo =
    match od_getitem lower (strip "/" ns) (_repository repo) with
    | Some d => (Return (classes d), repo)
    | None =>
        (Raise (KeyError (namespace_does_not_exist (strip "/" ns))), repo)
    end.
Proof.
  unfold get_class_repo. rewrite bool_decide_eq_false_2 by done.
  apply (accessor_eq classes).
Qed.

Lemma get_instance_repo_eq repo ns :
  get_instance_repo (Some ns) repo =
    match od_getitem lower (strip "/" ns) (_repository repo) with
    | Some d => (Return (instances d), repo)
    | None =>
        (Raise (KeyError (namespace_does_not_exist (strip "/" ns))), repo)
    end.
Proof.
  unfold get_instance_repo. rewrite bool_decide_eq_false_2 by done.
  apply (accessor_eq instances).
Qed.

Lemma get_qualifier_repo_eq repo ns :
  get_qualifier_repo (Some ns) repo =
    match od_getitem lower (strip "/" ns) (_repository repo) with
    | Some d => (Return (qualifiers d), repo)
    | None =>
        (Raise (KeyError (namespace_does_not_exist (strip "/" ns))), repo)
    end.
Proof.
  unfold get_qualifier_repo. rewrite bool_decide_eq_false_2 by done.
  apply (accessor_eq qualifiers).
Qed.

Lemma add_namespace_eq repo ns :
  add_namespace (Some ns) repo =
    if has_namespace repo ns then
      (Raise (ValueError (namespace_already_in_repository (strip "/" ns))),
       repo)
    else
      (Return tt,
       {| _repository := od_setitem lower (strip "/" ns) (empty_namespace K)
                           (_repository repo) |}).
Proof.
  unfold add_namespace, has_namespace, bind, gets, str_strip, ret, raise,
    modify. cbn.
  by destruct (od_contains lower (strip "/" ns) (_repository repo)).
Qed.

Lemma not_empty_eq field acc repo ns d :
  acc (Some ns) repo = (Return (field d), repo) →
  not_empty (acc (Some ns)) repo =
    (Return (negb (len (field d) =? 0)%nat), repo).
Proof. intros E. unfold not_empty, bind. by rewrite E. Qed.

Lemma remove_namespace_eq repo ns :
  remove_namespace (Some ns) repo =
    match od_getitem lower (strip "/" ns) (_repository repo) with
    | None =>
        (Raise (KeyError (namespace_does_not_exist (strip "/" ns))), repo)
    | Some d =>
        if negb (len (classes d) =? 0)%nat
           || negb (len (qualifiers d) =? 0)%nat
           || negb (len (instances d) =? 0)%nat
        then (Raise (ValueError (namespace_not_empty (strip "/" ns))), repo)
        else (Return tt,
              {| _repository := od_delitem lower (strip "/" ns)
                                  (_repository repo) |})
    end.
Proof.
  unfold remove_namespace. unfold bind at 1.
  rewrite validate_namespace_eq. unfold has_namespace.
  destruct (od_getitem lower (strip "/" ns) (_repository repo)) as [d|] eqn:E.
  - assert (od_contains lower (strip "/" ns) (_repository repo) = true) as ->
      by (apply od_contains_getitem; eauto).
    unfold bind at 1, str_strip at 1, ret at 1. cbv beta iota.
    unfold bind at 1, or_. unfold bind at 1.
    rewrite (not_empty_eq classes _ _ _ d)
      by (by rewrite get_class_repo_eq, strip_idemp, E).
    destruct (len (classes d) =? 0)%nat; cbn [negb orb]; [| done].
    unfold bind at 1.
    rewrite (not_empty_eq qualifiers _ _ _ d)
      by (by rewrite get_qualifier_repo_eq, strip_idemp, E).
    destruct (len (qualifiers d) =? 0)%nat; cbn [negb orb]; [| done].
    rewrite (not_empty_eq instances _ _ _ d)
      by (by rewrite get_instance_repo_eq, strip_idemp, E).
    by destruct (len (instances d) =? 0)%nat.
  - apply od_not_contains_getitem in E. by rewrite E.
Qed.
Lemma has_namespace_getitem repo ns :
  has_namespace repo ns = true ↔
  is_Some (od_getitem lower (strip "/" ns) (_repository repo)).
Proof. apply od_contains_getitem. Qed.

Lemma accessor_cases k repo ns :
  accessor k None repo =
    (Raise (ValueError namespace_None_not_permitted), repo)
  ∧ accessor k (Some ns) repo =
      match od_getitem lower (strip "/" ns) (_repository repo) with
      | Some d => (Return (store_of k d), repo)
      | None =>
          (Raise (KeyError (namespace_does_not_exist (strip "/" ns))), repo)
      end.
Proof.
  destruct k; (split; [done |]).
  - apply get_class_repo_eq.
  - apply get_instance_repo_eq.
  - apply get_qualifier_repo_eq.
Qed.

(** Names that differ in case only name the same namespace. *)
Lemma strip_case_variant ns ns' :
  str_lower ns' = str_lower ns →
  lower (strip "/" ns') = lower (strip "/" ns).
Proof.
  intros E. unfold lower, string_lower. by rewrite !strip_lower, E.
Qed.

(** C4.  [remove_namespace(ns)] raises [KeyError] (not found) when [ns] is
    not a namespace of the repository; it raises the [ValueError] of a
    namespace that is not empty whenever one of the three stores of the
    namespace, classes, instances or qualifier declarations, has a length
    above 0; otherwise it returns, and no name of the [namespaces]
    property is [ns], in any spelling of its letters. *)
Theorem remove_namespace_guard repo ns :
  (has_namespace repo ns = false →
     remove_namespace (Some ns) repo =
       (Raise (KeyError (namespace_does_not_exist (strip "/" ns))), repo))
  ∧ (∀ c i q,
       get_class_repo (Some ns) repo = (Return c, repo) →
       get_instance_repo (Some ns) repo = (Return i, repo) →
       get_qualifier_repo (Some ns) repo = (Return q, repo) →
       (0 < len c ∨ 0 < len i ∨ 0 < len q →
          remove_namespace (Some ns) repo =
            (Raise (ValueError (namespace_not_empty (strip "/" ns))), repo))
       ∧ (len c = 0 ∧ len i = 0 ∧ len q = 0 →
            ∃ repo', remove_namespace (Some ns) repo = (Return tt, repo')
              ∧ has_namespace repo' ns = false
              ∧ (strip "/" ns ∉ namespaces repo')
              ∧ ∀ n, n ∈ namespaces repo' →
                  str_lower n ≠ str_lower (strip "/" ns))).
Proof.
  split.
  - intros Hns. rewrite remove_namespace_eq.
    apply od_not_contains_getitem in Hns. by rewrite Hns.
  - intros c i q.
    rewrite get_class_repo_eq, get_instance_repo_eq, get_qualifier_repo_eq,
      remove_namespace_eq.
    destruct (od_getitem lower (strip "/" ns) (_repository repo)) as [d|];
      [| done].
    intros [= <-] [= <-] [= <-]. split.
    + intros Hlen.
      destruct (len (classes d)), (len (instances d)), (len (qualifiers d));
        cbn; try done. lia.
    + intros (-> & -> & ->). cbn. eexists. split; [done |].
      assert (∀ n, n ∈ namespaces {| _repository :=
                  od_delitem lower (strip "/" ns) (_repository repo) |} →
                str_lower n ≠ str_lower (strip "/" ns)) as Hgone
        by (intros n; apply (od_keys_delitem lower)).
      split; [| split; [| done]].
      * unfold has_namespace. cbn. rewrite od_contains_delitem.
        unfold same_key. by rewrite bool_decide_eq_true_2.
      * intros Hin. by apply Hgone in Hin.
Qed.

(** C5.  [add_namespace(ns)] removes the leading and the trailing ['/'] of
    [ns]; it raises [ValueError] (already exists) when the name so
    normalized is a namespace of the repository; otherwise it returns, the
    normalized name is the one new namespace, and its three stores, for
    classes, instances and qualifier declarations, have length 0. *)
Theorem add_namespace_creates repo ns :
  let n := strip "/" ns in
  ((∃ l r, ns = (l ++ n ++ r)%string
           ∧ all_in "/" l = true ∧ all_in "/" r = true)
   ∧ (∀ c t, n = String c t → c ≠ "/"%char)
   ∧ (∀ t c, n = (t ++ String c EmptyString)%string → c ≠ "/"%char))
  ∧ (has_namespace repo ns = true →
       add_namespace (Some ns) repo =
         (Raise (ValueError (namespace_already_in_repository n)), repo))
  ∧ (has_namespace repo ns = false →
       ∃ repo', add_namespace (Some ns) repo = (Return tt, repo')
         ∧ namespaces repo' = namespaces repo ++ [n]
         ∧ ∃ c i q,
             get_class_repo (Some ns) repo' = (Return c, repo')
             ∧ get_instance_repo (Some ns) repo' = (Return i, repo')
             ∧ get_qualifier_repo (Some ns) repo' = (Return q, repo')
             ∧ _cim_object_type c = CIMClass
             ∧ _cim_object_type i = CIMInstance
             ∧ _cim_object_type q = CIMQualifierDeclaration
             ∧ len c = 0 ∧ len i = 0 ∧ len q = 0).
Proof.
  intros n. split; [| split].
  - destruct (strip_spec "/" ns) as (Hfix & Hhead & Hlast).
    split; [done |]. split.
    + intros c t E ->. by specialize (Hhead _ _ E).
    + intros t c E ->. by specialize (Hlast _ _ E).
  - intros Hns. by rewrite add_namespace_eq, Hns.
  - intros Hns. rewrite add_namespace_eq, Hns. eexists. split; [done |].
    split.
    { unfold namespaces, od_keys. cbn.
      rewrite (od_setitem_absent lower) by exact Hns.
      by rewrite fmap_app. }
    exists (classes (empty_namespace K)), (instances (empty_namespace K)),
      (qualifiers (empty_namespace K)).
    rewrite get_class_repo_eq, get_instance_repo_eq, get_qualifier_repo_eq.
    cbn [_repository]. rewrite od_getitem_setitem.
    unfold same_key. by rewrite bool_decide_eq_true_2.
Qed.

(** C6, as the code has it.  [validate_namespace(ns)] raises [ValueError]
    when [ns] is [None], raises [KeyError] (not found) when [ns], once
    normalized, is not a namespace of the repository, and returns
    otherwise; it never changes the repository. *)
Theorem validate_namespace_cases repo ns :
  validate_namespace None repo =
    (Raise (ValueError namespace_must_not_be_None), repo)
  ∧ (has_namespace repo ns = false →
       validate_namespace (Some ns) repo =
         (Raise (KeyError (namespace_does_not_exist (strip "/" ns))), repo))
  ∧ (has_namespace repo ns = true →
       validate_namespace (Some ns) repo = (Return tt, repo)).
Proof.
  split; [done |].
  split; intros Hns; by rewrite validate_namespace_eq, Hns.
Qed.

(** C7.  Each of the accessors [get_class_repo], [get_instance_repo] and
    [get_qualifier_repo] returns the store of its kind of the namespace
    when the namespace exists.  On [None] it raises [ValueError], on a
    name that is no namespace [KeyError]: two exceptions of different
    classes. *)
Theorem accessor_results repo k :
  (∀ ns, has_namespace repo ns = true →
     ∃ d, od_getitem lower (strip "/" ns) (_repository repo) = Some d
          ∧ accessor k (Some ns) repo = (Return (store_of k d), repo))
  ∧ accessor k None repo =
      (Raise (ValueError namespace_None_not_permitted), repo)
  ∧ (∀ ns, has_namespace repo ns = false →
       accessor k (Some ns) repo =
         (Raise (KeyError (namespace_does_not_exist (strip "/" ns))), repo))
  ∧ raised (accessor k None) repo is_ValueError = true
  ∧ raised (accessor k None) repo is_KeyError = false
  ∧ (∀ ns, has_namespace repo ns = false →
       raised (accessor k (Some ns)) repo is_KeyError = true
       ∧ raised (accessor k (Some ns)) repo is_ValueError = false).
Proof.
  assert (∀ ns, has_namespace repo ns = false →
            accessor k (Some ns) repo =
              (Raise (KeyError (namespace_does_not_exist (strip "/" ns))),
               repo)) as Habsent.
  { intros ns Hns. destruct (accessor_cases k repo ns) as [_ ->].
    apply od_not_contains_getitem in Hns. by rewrite Hns. }
  destruct (accessor_cases k repo EmptyString) as [HNone _].
  unfold raised. rewrite HNone.
  split; [| split; [done | split; [done | split; [done | split; [done |]]]]].
  - intros ns [d Hd]%has_namespace_getitem. exists d. split; [done |].
    destruct (accessor_cases k repo ns) as [_ ->]. by rewrite Hd.
  - intros ns Hns. by rewrite (Habsent ns Hns).
Qed.

(** C9.  Namespace names are compared without regard to case: once
    [add_namespace(N)] has returned, for every name [N'] that differs from
    [N] in case only, [validate_namespace(N')] returns, each store
    accessor returns for [N'] the store it returns for [N], and
    [add_namespace(N')] raises [ValueError] (already exists). *)
Theorem namespace_case_insensitive repo N repo' :
  add_namespace (Some N) repo = (Return tt, repo') →
  ∀ N', str_lower N' = str_lower N →
    validate_namespace (Some N') repo' = (Return tt, repo')
    ∧ (∀ k, ∃ d, accessor k (Some N') repo' = (Return (store_of k d), repo')
                 ∧ accessor k (Some N) repo' = (Return (store_of k d), repo'))
    ∧ add_namespace (Some N') repo' =
        (Raise (ValueError (namespace_already_in_repository (strip "/" N'))),
         repo').
Proof.
  rewrite add_namespace_eq.
  destruct (has_namespace repo N) eqn:Hnew; [done |].
  intros [= <-] N' HN'. apply strip_case_variant in HN'.
  set (repo' := {| _repository := _ |}).
  assert (od_getitem lower (strip "/" N) (_repository repo')
          = Some (empty_namespace K)) as HgetN.
  { cbn. rewrite od_getitem_setitem.
    unfold same_key. by rewrite bool_decide_eq_true_2. }
  assert (od_getitem lower (strip "/" N') (_repository repo')
          = Some (empty_namespace K)) as HgetN'
    by (by rewrite (od_getitem_real_key lower _ _ _ HN')).
  assert (has_namespace repo' N' = true) as Hhas
    by (apply has_namespace_getitem; eauto).
  split; [by rewrite validate_namespace_eq, Hhas |].
  split; [| by rewrite add_namespace_eq, Hhas].
  intros k. exists (empty_namespace K).
  destruct (accessor_cases k repo' N) as [_ ->].
  destruct (accessor_cases k repo' N') as [_ ->].
  by rewrite HgetN, HgetN'.
Qed.
End repository_facts.

(** ** Runs on the sample stores and repositories *)

(** The runs are those of an interpreter started by default, with
    assertions enabled, where nothing else is said. *)
Section runs.
#[local] Existing Instance assertions_on.

Example init_class_store :
  InMemoryObjectStore_init (K := string) CIMClass tt
  = (Return (Store class_store), tt)
  ∧ InMemoryObjectStore_init (K := string) CIMInstance tt
    = (Return (Store instance_store), tt)
  ∧ InMemoryObjectStore_init (K := string) (OtherType "str") tt
    = (Raise (AssertionError (Some (invalid_input_parameter (OtherType "str")))),
       tt)
  ∧ InMemoryObjectStore_init (python := assertions_off) (K := string)
      (OtherType "str") tt
    = (Return (Without_data (OtherType "str")), tt).
Proof. repeat split. Qed.

Example init_repository :
  InMemoryRepository_init (Some "/root/Test/") = (Return tt, repo_test)
  ∧ InMemoryRepository_init None = (Return tt, empty_repo)
  ∧ InMemoryRepository_init (Some EmptyString) = (Return tt, empty_repo).
Proof. repeat split. Qed.

Example strip_examples :
  strip "/" "//root/cimv2/" = "root/cimv2"
  ∧ strip "/" "///" = EmptyString
  ∧ strip "/" "a//b" = "a//b"
  ∧ str_lower "Root/CIMv2" = "root/cimv2".
Proof. repeat split. Qed.

Lemma create_get_roundtrip_witness :
  exists_ class_store "Foo" = false
  ∧ create "Foo" 0 {| self := class_store; objects := caller_heap |}
    = (Return tt, class_world_Foo)
  ∧ ∃ r w2, get "Foo" true class_world_Foo = (Return r, w2)
      ∧ objects w2 !! r = Some Foo_class
      ∧ ∃ r' w3,
          get "Foo" true {| self := self w2;
                            objects := mutate r Bar_class (objects w2) |}
            = (Return r', w3)
          ∧ objects w3 !! r' = Some Foo_class.
Proof.
  split; [reflexivity |]. split; [reflexivity |].
  destruct (create_get_roundtrip (python := assertions_on)
              class_store caller_heap "Foo" 0
              class_world_Foo eq_refl eq_refl)
    as (v & Hv & r & w2 & Hget & Hr & _ & _ & _ & Hmut).
  injection Hv as <-. exists r, w2. split; [exact Hget |].
  split; [exact Hr |]. exact (proj2 (Hmut Bar_class)).
Defined.

Lemma store_errors_exactly_witness :
  isinstance (objects class_world_Foo) 0 CIMClass = true
  ∧ raised (get "FOO" true) class_world_Foo is_KeyError = false
  ∧ raised (get "Bar" true) class_world_Foo is_KeyError = true
  ∧ raised (update "Bar" 0) class_world_Foo is_KeyError = true
  ∧ raised (create "foo" 0) class_world_Foo is_ValueError = true
  ∧ raised (create "Bar" 0) class_world_Foo is_ValueError = false.
Proof.
  split; [reflexivity |].
  pose proof (store_errors_exactly (self class_world_Foo)
                (objects class_world_Foo)) as Hstore.
  split; [exact (proj1 (Hstore "FOO") true) |].
  split; [exact (proj1 (Hstore "Bar") true) |].
  split; [exact (proj1 (proj2 (proj2 (Hstore "Bar")) 0 eq_refl)) |].
  split; [exact (proj1 (proj2 (proj2 (proj2 (Hstore "foo")) 0 eq_refl))) |].
  exact (proj1 (proj2 (proj2 (proj2 (Hstore "Bar")) 0 eq_refl))).
Defined.

Lemma key_comparison_witness :
  (store_inv class_store = true
   ∧ create "Foo" 0 {| self := class_store; objects := caller_heap |}
     = (Return tt, class_world_Foo)
   ∧ exists_ (self class_world_Foo) "FOO" = true
   ∧ get "foo" true class_world_Foo = get "Foo" true class_world_Foo)
  ∧ (store_inv instance_store = true
     ∧ create "Foo" 1 {| self := instance_store; objects := caller_heap |}
       = (Return tt, instance_world_Foo)
     ∧ iter_names (self instance_world_Foo) = ["Foo"]
     ∧ exists_ (self instance_world_Foo) "Foo" = true
     ∧ ("foo" ∉ iter_names (self instance_world_Foo))
     ∧ exists_ (self instance_world_Foo) "foo" = false
     ∧ get "foo" true instance_world_Foo
       = (Raise (KeyError (not_in_object_store "foo" CIMInstance)),
          instance_world_Foo)).
Proof.
  split.
  - split; [reflexivity |]. split; [reflexivity |].
    destruct (key_comparison (python := assertions_on)
                class_store caller_heap "Foo" 0 class_world_Foo
                eq_refl eq_refl) as [Hnocase _].
    split.
    + exact (proj1 (Hnocase ltac:(by left) "FOO" eq_refl)).
    + exact (proj2 (proj1 (proj2 (Hnocase ltac:(by left) "foo" eq_refl)) true)).
  - split; [reflexivity |]. split; [reflexivity |].
    destruct (key_comparison (python := assertions_on)
                instance_store caller_heap "Foo" 1
                instance_world_Foo eq_refl eq_refl) as [_ Hexact].
    destruct (Hexact eq_refl) as [Hnames Hkeys].
    assert ("foo" ∉ iter_names (self instance_world_Foo)) as Hnotin
      by (by intros [=]%list_elem_of_singleton).
    split; [exact Hnames |].
    split; [exact (proj2 (proj1 (Hkeys "Foo")) (or_introl eq_refl)) |].
    split; [exact Hnotin |].
    destruct (proj2 (proj2 (Hkeys "foo")) Hnotin) as [Habsent Hget].
    split; [exact Habsent | exact (Hget true)].
Defined.



Lemma failure_leaves_store_unchanged_witness :
  create "FOO" 0 class_world_Foo
  = (Raise (ValueError (already_in_object_store "FOO" CIMClass)),
     class_world_Foo)
  ∧ update "Bar" 0 class_world_Foo
    = (Raise (KeyError (not_in_object_store "Bar" CIMClass)), class_world_Foo)
  ∧ delete "Bar" class_world_Foo
    = (Raise (KeyError (not_in_object_store "Bar" CIMClass)), class_world_Foo)
  ∧ exists_ (self class_world_Foo) "FOO" = true
  ∧ exists_ (self class_world_Foo) "Bar" = false.
Proof.
  split; [reflexivity |]. split; [reflexivity |]. split; [reflexivity |].
  split.
  - exact (proj2 (proj1 (failure_leaves_store_unchanged class_world_Foo "FOO" 0)
                    _ _ eq_refl eq_refl)).
  - exact (proj2 (proj2 (proj2 (failure_leaves_store_unchanged
                                  class_world_Foo "Bar" 0))
                    _ _ eq_refl eq_refl)).
Defined.

Lemma remove_namespace_guard_witness :
  (has_namespace repo_test "cimv2" = false
   ∧ remove_namespace (Some "cimv2") repo_test
     = (Raise (KeyError (namespace_does_not_exist "cimv2")), repo_test))
  ∧ (get_class_repo (Some "/ROOT/test/") repo_test_Foo
     = (Return (self class_world_Foo), repo_test_Foo)
     ∧ 0 < len (self class_world_Foo)
     ∧ remove_namespace (Some "/ROOT/test/") repo_test_Foo
       = (Raise (ValueError (namespace_not_empty "ROOT/test")), repo_test_Foo))
  ∧ (len (classes (empty_namespace string)) = 0
     ∧ remove_namespace (Some "/ROOT/test/") repo_test = (Return tt, empty_repo)
     ∧ namespaces empty_repo = []).
Proof.
  split; [| split].
  - split; [reflexivity |].
    exact (proj1 (remove_namespace_guard repo_test "cimv2") eq_refl).
  - split; [reflexivity |]. split; [cbn; lia |].
    refine (proj1 (proj2 (remove_namespace_guard repo_test_Foo "/ROOT/test/")
                     _ _ _ eq_refl eq_refl eq_refl) _).
    left. cbn. lia.
  - split; [reflexivity |].
    destruct (proj2 (proj2 (remove_namespace_guard repo_test "/ROOT/test/")
                       _ _ _ eq_refl eq_refl eq_refl)
                (conj eq_refl (conj eq_refl eq_refl)))
      as (repo' & Hremove & _).
    split; [| reflexivity].
    rewrite Hremove. injection Hremove as <-. reflexivity.
Defined.

Lemma add_namespace_creates_witness :
  (has_namespace repo_test "/ROOT/TEST" = true
   ∧ add_namespace (Some "/ROOT/TEST") repo_test
     = (Raise (ValueError (namespace_already_in_repository "ROOT/TEST")),
        repo_test))
  ∧ (has_namespace empty_repo "/root/Test/" = false
     ∧ add_namespace (Some "/root/Test/") empty_repo = (Return tt, repo_test)
     ∧ namespaces repo_test = ["root/Test"]).
Proof.
  split.
  - split; [reflexivity |].
    exact (proj1 (proj2 (add_namespace_creates repo_test "/ROOT/TEST")) eq_refl).
  - split; [reflexivity |].
    destruct (proj2 (proj2 (add_namespace_creates empty_repo "/root/Test/"))
                eq_refl) as (repo' & Hadd & Hnames & _).
    split; [| reflexivity].
    rewrite Hadd. injection Hadd as <-. reflexivity.
Defined.

(** C6, as the claim has it, fails on [None]: [validate_namespace(None)]
    raises [ValueError], not the [KeyError] raised for a name that is no
    namespace. *)
Lemma validate_namespace_None_counterexample :
  ¬ (∀ (repo : InMemoryRepository string) (namespace : option string),
       namespace = None
       ∨ (∃ ns, namespace = Some ns ∧ has_namespace repo ns = false) →
       raised (validate_namespace namespace) repo is_KeyError = true).
Proof.
  intros Hclaim. specialize (Hclaim empty_repo None (or_introl eq_refl)).
  discriminate Hclaim.
Qed.

Lemma validate_namespace_cases_witness :
  validate_namespace None repo_test
  = (Raise (ValueError namespace_must_not_be_None), repo_test)
  ∧ (has_namespace repo_test "cimv2" = false
     ∧ validate_namespace (Some "cimv2") repo_test
       = (Raise (KeyError (namespace_does_not_exist "cimv2")), repo_test))
  ∧ (has_namespace repo_test "/Root/TEST/" = true
     ∧ validate_namespace (Some "/Root/TEST/") repo_test
       = (Return tt, repo_test)).
Proof.
  split; [| split].
  - exact (proj1 (validate_namespace_cases repo_test EmptyString)).
  - split; [reflexivity |].
    exact (proj1 (proj2 (validate_namespace_cases repo_test "cimv2")) eq_refl).
  - split; [reflexivity |].
    exact (proj2 (proj2 (validate_namespace_cases repo_test "/Root/TEST/"))
             eq_refl).
Defined.

Lemma accessor_results_witness :
  has_namespace repo_test_Foo "ROOT/TEST" = true
  ∧ has_namespace repo_test_Foo "cimv2" = false
  ∧ get_class_repo (Some "ROOT/TEST") repo_test_Foo
    = (Return (self class_world_Foo), repo_test_Foo)
  ∧ get_instance_repo (Some "cimv2") repo_test_Foo
    = (Raise (KeyError (namespace_does_not_exist "cimv2")), repo_test_Foo)
  ∧ get_qualifier_repo None repo_test_Foo
    = (Raise (ValueError namespace_None_not_permitted), repo_test_Foo).
Proof.
  split; [reflexivity |]. split; [reflexivity |]. split; [| split].
  - destruct (proj1 (accessor_results repo_test_Foo classes_key)
                "ROOT/TEST" eq_refl) as (d & Hd & Hacc).
    injection Hd as <-. exact Hacc.
  - exact (proj1 (proj2 (proj2 (accessor_results repo_test_Foo instances_key)))
             "cimv2" eq_refl).
  - exact (proj1 (proj2 (accessor_results repo_test_Foo qualifiers_key))).
Defined.

Lemma namespace_case_insensitive_witness :
  add_namespace (Some "/root/Test/") empty_repo = (Return tt, repo_test)
  ∧ str_lower "/ROOT/test/" = str_lower "/root/Test/"
  ∧ validate_namespace (Some "/ROOT/test/") repo_test = (Return tt, repo_test)
  ∧ get_class_repo (Some "/ROOT/test/") repo_test
    = get_class_repo (Some "/root/Test/") repo_test
  ∧ add_namespace (Some "/ROOT/test/") repo_test
    = (Raise (ValueError (namespace_already_in_repository "ROOT/test")),
       repo_test).
Proof.
  split; [reflexivity |]. split; [reflexivity |].
  destruct (namespace_case_insensitive empty_repo "/root/Test/" repo_test
              eq_refl "/ROOT/test/" eq_refl) as (Hvalid & Hacc & Hadd).
  split; [exact Hvalid |]. split; [| exact Hadd].
  destruct (Hacc classes_key) as (d & H1 & H2).
  exact (eq_trans H1 (eq_sym H2)).
Defined.

End runs.

(** * Further properties *)

(** ** Dictionaries: keys, values and lengths *)

Section ordered_dict_more.
Context {K V : Type} `{EqDecision K} (real_key : K → K).
Implicit Types (k : K) (v : V) (d : list (K * V)).

Local Abbreviation contains := (od_contains real_key).
Local Abbreviation getitem := (od_getitem real_key).
Local Abbreviation setitem := (od_setitem real_key).
Local Abbreviation delitem := (od_delitem real_key).

Lemma od_contains_real_keys k d :
  contains k d = true ↔ real_key k ∈ real_key <$> od_keys d.
Proof.
  rewrite od_contains_elem, list_elem_of_fmap. split.
  - intros (k' & Hin & E). by exists k'.
  - intros (k' & E & Hin). by exists k'.
Qed.

Lemma od_keys_setitem_absent k v d :
  contains k d = false → od_keys (setitem k v d) = od_keys d ++ [k].
Proof.
  intros Hk. rewrite (od_setitem_absent real_key) by done.
  unfold od_keys. by rewrite fmap_app.
Qed.

Lemma od_real_keys_setitem_present k v d :
  contains k d = true →
  real_key <$> od_keys (setitem k v d) = real_key <$> od_keys d.
Proof.
  unfold od_keys. induction d as [|[k0 v0] d IH]; cbn; [done |].
  destruct (same_key real_key k0 k) eqn:E0; cbn.
  - intros _. apply same_key_true in E0. by rewrite E0.
  - intros Hd. by rewrite IH.
Qed.

Lemma od_length_setitem k v d :
  List.length (setitem k v d) =
    if contains k d then List.length d else S (List.length d).
Proof.
  induction d as [|[k0 v0] d IH]; cbn; [done |].
  destruct (same_key real_key k0 k); cbn; [done |].
  rewrite IH. by destruct (contains k d).
Qed.

Lemma od_keys_delitem_filter k d :
  od_keys (delitem k d) =
    base.filter (λ k', real_key k' ≠ real_key k) (od_keys d).
Proof.
  unfold od_keys. induction d as [|[k0 v0] d IH]; [done |].
  rewrite fmap_cons, filter_cons. cbn [od_delitem fst]. unfold same_key.
  case_bool_decide; case_decide; try done;
    rewrite ?fmap_cons; cbn [fst]; by rewrite IH.
Qed.

Lemma od_NoDup_setitem k v d :
  NoDup (real_key <$> od_keys d) →
  NoDup (real_key <$> od_keys (setitem k v d)).
Proof.
  intros Hd. destruct (contains k d) eqn:Hk.
  - by rewrite od_real_keys_setitem_present.
  - rewrite od_keys_setitem_absent, fmap_app by done.
    apply NoDup_app. split; [done |]. split; [| apply NoDup_singleton].
    intros x Hx ->%list_elem_of_singleton.
    apply od_contains_real_keys in Hx. congruence.
Qed.

Lemma od_NoDup_delitem k d :
  NoDup (real_key <$> od_keys d) →
  NoDup (real_key <$> od_keys (delitem k d)).
Proof.
  unfold od_keys. induction d as [|[k0 v0] d IH]; cbn; [done |].
  intros [Hnotin Hd]%NoDup_cons.
  destruct (same_key real_key k0 k); cbn; [by apply IH |].
  apply NoDup_cons. split; [| by apply IH].
  intros Hin. apply Hnotin.
  change (real_key k0 ∈ real_key <$> od_keys (delitem k d)) in Hin.
  rewrite od_keys_delitem_filter in Hin.
  apply list_elem_of_fmap in Hin as (k' & E & Hin%list_elem_of_filter).
  apply list_elem_of_fmap. exists k'. by destruct Hin.
Qed.

(** In a dictionary with distinct keys, [del d[k]] removes one item. *)
Lemma od_length_delitem k d :
  NoDup (real_key <$> od_keys d) → contains k d = true →
  S (List.length (delitem k d)) = List.length d.
Proof.
  unfold od_keys. induction d as [|[k0 v0] d IH]; cbn; [done |].
  intros [Hnotin Hd]%NoDup_cons.
  destruct (same_key real_key k0 k) eqn:E0; cbn.
  - intros _. f_equal.
    assert (contains k d = false) as Hk.
    { apply not_true_iff_false. intros Hk%od_contains_real_keys.
      apply same_key_true in E0. by rewrite <- E0 in Hk. }
    clear -Hk. induction d as [|[k1 v1] d IH]; cbn in *; [done |].
    apply orb_false_iff in Hk as [-> Hk]. cbn. by rewrite IH.
  - intros Hk. by rewrite IH.
Qed.



End ordered_dict_more.

(** ** The object store: aliasing, composition and invariants *)

Section object_store_more.
Context {K : Type} `{EqDecision K} `{Lower K} {python : Assertions}.
Implicit Types (st : InMemoryObjectStore K) (h : heap) (name : K) (o : ref).
Implicit Types (w : world K).



Lemma data_items_with_items (d : data K) items :
  data_items (data_with_items d items) = items
  ∧ data_real_key (data_with_items d items) = data_real_key d.
Proof. by destruct d. Qed.

Lemma data_items_setitem name o (d : data K) :
  data_items (data_setitem name o d) =
    od_setitem (data_real_key d) name o (data_items d).
Proof. by destruct d. Qed.

Lemma data_items_delitem name (d : data K) :
  data_items (data_delitem name d) =
    od_delitem (data_real_key d) name (data_items d).
Proof. by destruct d. Qed.

Lemma data_real_key_setitem name o (d : data K) :
  data_real_key (data_setitem name o d) = data_real_key d.
Proof. by destruct d. Qed.

Lemma data_real_key_delitem name (d : data K) :
  data_real_key (data_delitem name d) = data_real_key d.
Proof. by destruct d. Qed.

(** X1.  [get(name, copy=False)] returns the object the store itself keeps
    and changes nothing: whatever is then done to that object is what the
    next [get(name)] returns a copy of. *)
Theorem get_without_copy_is_stored_object st h name o v :
  data_getitem name (_data st) = Some o →
  h !! o = Some v →
  get name false {| self := st; objects := h |}
    = (Return o, {| self := st; objects := h |})
  ∧ ∀ v', ∃ r w',
      get name true {| self := st; objects := mutate o v' h |} = (Return r, w')
      ∧ objects w' !! r = Some v'.
Proof.
  intros Hget Ho. split; [by rewrite get_eq, Hget |].
  intros v'. rewrite get_eq, Hget. unfold mutate.
  rewrite list_lookup_insert_eq by (by eapply lookup_lt_Some).
  eexists _, _. split; [done |]. apply lookup_snoc.
Qed.

(** X2.  [create] and [update] keep a copy of their argument, not the
    argument: whatever the caller does to its object after the call, [get]
    still returns an object equal to what was handed in. *)
Theorem store_copies_argument st h name O v w1 :
  h !! O = Some v →
  create name O {| self := st; objects := h |} = (Return tt, w1)
    ∨ update name O {| self := st; objects := h |} = (Return tt, w1) →
  ∀ v', mutate O v' (objects w1) !! O = Some v'
    ∧ ∃ r w2,
        get name true {| self := self w1;
                         objects := mutate O v' (objects w1) |}
          = (Return r, w2)
        ∧ objects w2 !! r = Some v.
Proof.
  intros HO Hcall v'.
  assert (O < List.length h) as Hlt by (by eapply lookup_lt_Some).
  assert (w1 = {| self := stored st name (List.length h);
                  objects := h ++ [v] |}) as ->.
  { destruct Hcall as [Hcall | Hcall]; revert Hcall;
      rewrite ?create_eq, ?update_eq, HO;
      destruct (__debug__ && _); try done;
      destruct (exists_ st name); try done; by intros [= <-]. }
  cbn [self objects]. unfold mutate. split.
  - apply list_lookup_insert_eq. rewrite length_app. lia.
  - rewrite get_eq, stored_getitem.
    rewrite list_lookup_insert_ne by lia.
    rewrite lookup_snoc. eexists _, _. split; [done |]. apply lookup_snoc.
Qed.

(** X3.  Which names exist after an operation that returned: [create] adds
    the name (in every spelling the dictionary takes for the same key),
    [update] changes nothing, [delete] removes the name in every such
    spelling; no other name appears or disappears. *)
Theorem exists_after st h name o w' :
  let w := {| self := st; objects := h |} in
  let same n := same_key (data_real_key (_data st)) name n in
  (create name o w = (Return tt, w') →
     ∀ n, exists_ (self w') n = same n || exists_ st n)
  ∧ (update name o w = (Return tt, w') →
       ∀ n, exists_ (self w') n = exists_ st n)
  ∧ (delete name w = (Return tt, w') →
       ∀ n, exists_ (self w') n = negb (same n) && exists_ st n).
Proof.
  intros w same. unfold w. rewrite create_eq, update_eq, delete_eq.
  split; [| split].
  - destruct (__debug__ && _); [done |].
    destruct (exists_ st name); [done |]. destruct (h !! o); [| done].
    intros [= <-] n. apply data_contains_setitem.
  - destruct (__debug__ && _); [done |].
    destruct (exists_ st name) eqn:Hex; [| done]. destruct (h !! o); [| done].
    intros [= <-] n. unfold exists_. cbn [self stored _data].
    rewrite data_contains_setitem.
    destruct (same_key _ name n) eqn:E; [| done].
    apply same_key_true in E. cbn. symmetry. rewrite <- Hex.
    unfold exists_, data_contains. by apply od_contains_real_key.
  - destruct (exists_ st name); [| done].
    intros [= <-] n. apply data_contains_delitem.
Qed.

(** X4.  An operation on one name leaves every other name alone: after
    [create], [update] or [delete] of [name], however the call ends, a name
    that the dictionary does not take for [name] refers to the object it
    referred to, and that object is as it was. *)
Theorem other_names_untouched w w' name o r name' o' :
  create name o w = (r, w') ∨ update name o w = (r, w')
    ∨ delete name w = (r, w') →
  data_real_key (_data (self w)) name ≠ data_real_key (_data (self w)) name' →
  data_getitem name' (_data (self w)) = Some o' →
  is_Some (objects w !! o') →
  data_getitem name' (_data (self w')) = Some o'
  ∧ objects w' !! o' = objects w !! o'.
Proof.
  destruct w as [st h]. cbn [self objects].
  rewrite create_eq, update_eq, delete_eq.
  intros Hcall Hne Hget [v' Hv'].
  assert (data_getitem name' (data_setitem name (List.length h) (_data st))
          = Some o') as Hset.
  { rewrite data_getitem_setitem.
    by rewrite (proj2 (same_key_false _ _ _) Hne). }
  assert (data_getitem name' (data_delitem name (_data st)) = Some o')
    as Hdel.
  { unfold data_getitem.
    rewrite data_items_delitem, data_real_key_delitem, od_getitem_delitem.
    by rewrite (proj2 (same_key_false _ _ _) Hne). }
  destruct Hcall as [E | [E | E]]; revert E;
    repeat match goal with
      | |- context [if ?b then _ else _] => destruct b
      | |- context [match ?x with Some _ => _ | None => _ end] => destruct x
      end; intros [= <- <-]; cbn [self objects stored _data];
    rewrite ?Hset, ?Hdel, ?Hget; (split; [done |]);
    try done; by rewrite (lookup_app_l_Some _ _ _ _ Hv').
Qed.

(** X5.  After [delete(name)] has returned, the name is gone: [get] and a
    second [delete] raise [KeyError], a [create] under the name is accepted
    again for an object of the store's type, and no object was touched. *)
Theorem delete_then st h name w' :
  delete name {| self := st; objects := h |} = (Return tt, w') →
  objects w' = h
  ∧ exists_ (self w') name = false
  ∧ (∀ copy, get name copy w' =
       (Raise (KeyError (not_in_object_store name (_cim_object_type st))), w'))
  ∧ delete name w' =
      (Raise (KeyError (not_in_object_store name (_cim_object_type st))), w')
  ∧ ∀ o, isinstance h o (_cim_object_type st) = true →
      returned (create name o) w' = true.
Proof.
  rewrite delete_eq. destruct (exists_ st name); [| done]. intros [= <-].
  cbn [self objects].
  assert (exists_ {| _cim_object_type := _cim_object_type st;
                     _data := data_delitem name (_data st) |} name = false)
    as Hgone.
  { unfold exists_. cbn. rewrite data_contains_delitem.
    unfold same_key. by rewrite bool_decide_eq_true_2. }
  split; [done |]. split; [done |]. split; [| split].
  - intros copy. rewrite get_eq. cbn [_data _cim_object_type].
    apply data_not_contains_getitem in Hgone. cbn in Hgone. by rewrite Hgone.
  - by rewrite delete_eq, Hgone.
  - intros o Hty. unfold returned. rewrite create_eq, Hgone.
    cbn [_cim_object_type]. rewrite Hty, andb_false_r.
    by destruct (isinstance_Some _ _ _ Hty) as (v & -> & _).
Qed.

(** How a call of [create], [update] or [delete] can end.  The object that
    [create] or [update] copies is of the store's type where the assertion
    was executed. *)
Lemma call_cases w w' name o r :
  create name o w = (r, w') ∨ update name o w = (r, w')
    ∨ delete name w = (r, w') →
  w' = w
  ∨ (∃ v, objects w !! o = Some v
          ∧ (__debug__ = true → ob_type v = _cim_object_type (self w))
          ∧ r = Return tt
          ∧ w' = {| self := stored (self w) name (List.length (objects w));
                    objects := objects w ++ [v] |})
  ∨ (r = Return tt ∧ exists_ (self w) name = true
     ∧ w' = {| self := {| _cim_object_type := _cim_object_type (self w);
                          _data := data_delitem name (_data (self w)) |};
               objects := objects w |}).
Proof.
  destruct w as [st h]. cbn [self objects].
  rewrite create_eq, update_eq, delete_eq.
  intros [E | [E | E]]; revert E.
  - destruct (__debug__ && _) eqn:Hassert; [intros [= <- <-]; by left |].
    destruct (exists_ st name); [intros [= <- <-]; by left |].
    destruct (h !! o) as [v|] eqn:Hv; intros [= <- <-]; [| by left].
    right. left. exists v. split; [done |]. split; [| done].
    intros Hdebug. rewrite Hdebug in Hassert.
    apply negb_false_iff in Hassert.
    destruct (isinstance_Some _ _ _ Hassert) as (v' & Hv' & <-). congruence.
  - destruct (__debug__ && _) eqn:Hassert; [intros [= <- <-]; by left |].
    destruct (exists_ st name); [| intros [= <- <-]; by left].
    destruct (h !! o) as [v|] eqn:Hv; intros [= <- <-]; [| by left].
    right. left. exists v. split; [done |]. split; [| done].
    intros Hdebug. rewrite Hdebug in Hassert.
    apply negb_false_iff in Hassert.
    destruct (isinstance_Some _ _ _ Hassert) as (v' & Hv' & <-). congruence.
  - destruct (exists_ st name); intros [= <- <-]; [| by left].
    by right; right.
Qed.

Lemma iter_names_stored st name o :
  iter_names (stored st name o) =
    od_keys (od_setitem (data_real_key (_data st)) name o
               (data_items (_data st)))
  ∧ data_real_key (_data (stored st name o)) = data_real_key (_data st).
Proof.
  unfold iter_names, stored. cbn [_data].
  by rewrite data_items_setitem, data_real_key_setitem.
Qed.

(** X6.  The keys of a store stay distinct: a new store has none, and
    [create], [update] and [delete], however they end, leave a store whose
    keys are distinct for the comparison of its dictionary if they were
    before. *)
Theorem keys_distinct_kept w w' name o r :
  (∀ t st (s s' : unit),
     InMemoryObjectStore_init t s = (Return (Store st), s') → keys_distinct st)
  ∧ (create name o w = (r, w') ∨ update name o w = (r, w')
       ∨ delete name w = (r, w') →
     keys_distinct (self w) → keys_distinct (self w')).
Proof.
  split.
  - intros t st s s'. unfold InMemoryObjectStore_init, keys_distinct.
    repeat case_bool_decide;
      [| | unfold bind, assert_msg, raise, ret; by destruct __debug__];
      intros [= <- <-]; cbn; apply NoDup_nil_2.
  - intros Hcall Hd.
    destruct (call_cases _ _ _ _ _ Hcall)
      as [-> | [(v & _ & _ & _ & ->) | (_ & _ & ->)]]; [done | |].
    + cbn [self]. unfold keys_distinct.
      destruct (iter_names_stored (self w) name (List.length (objects w)))
        as [-> ->].
      by apply od_NoDup_setitem.
    + unfold keys_distinct, iter_names in *. cbn [self _data].
      rewrite data_items_delitem, data_real_key_delitem.
      by apply od_NoDup_delitem.
Qed.

(** X7.  The length of a store after an operation that returned: one more
    after [create], the same after [update], and, in a store with distinct
    keys, one less after [delete]. *)
Theorem len_after st h name o w' :
  let w := {| self := st; objects := h |} in
  (create name o w = (Return tt, w') → len (self w') = S (len st))
  ∧ (update name o w = (Return tt, w') → len (self w') = len st)
  ∧ (delete name w = (Return tt, w') → keys_distinct st →
       S (len (self w')) = len st).
Proof.
  intros w. unfold w. rewrite create_eq, update_eq, delete_eq.
  assert (∀ r, len (stored st name r) =
               if exists_ st name then len st else S (len st)) as Hlen.
  { intros r. unfold len, od_len, exists_, data_contains, stored.
    cbn [_data]. rewrite data_items_setitem. apply od_length_setitem. }
  split; [| split].
  - destruct (__debug__ && _); [done |].
    destruct (exists_ st name) eqn:Hex; [done |]. destruct (h !! o); [| done].
    intros [= <-]. cbn [self]. by rewrite Hlen.
  - destruct (__debug__ && _); [done |].
    destruct (exists_ st name) eqn:Hex; [| done]. destruct (h !! o); [| done].
    intros [= <-]. cbn [self]. by rewrite Hlen.
  - destruct (exists_ st name) eqn:Hex; [| done].
    intros [= <-] Hd. unfold len, od_len. cbn [self _data].
    rewrite data_items_delitem. by apply od_length_delitem.
Qed.

(** X8.  The names [iter_names] runs through, in order: [create] puts the
    new name last, [delete] takes out the names the dictionary takes for
    the deleted one and keeps the others in their order, and [update] keeps
    every position, the key at the updated position being the same key for
    the dictionary. *)
Theorem iter_names_after st h name o w' :
  let w := {| self := st; objects := h |} in
  let real_key := data_real_key (_data st) in
  (create name o w = (Return tt, w') →
     iter_names (self w') = iter_names st ++ [name])
  ∧ (update name o w = (Return tt, w') →
       real_key <$> iter_names (self w') = real_key <$> iter_names st)
  ∧ (delete name w = (Return tt, w') →
       iter_names (self w') =
         base.filter (λ k, real_key k ≠ real_key name) (iter_names st)).
Proof.
  intros w real_key. unfold w. rewrite create_eq, update_eq, delete_eq.
  split; [| split].
  - destruct (__debug__ && _); [done |].
    destruct (exists_ st name) eqn:Hex; [done |]. destruct (h !! o); [| done].
    intros [= <-]. cbn [self].
    destruct (iter_names_stored st name (List.length h)) as [-> _].
    by apply od_keys_setitem_absent.
  - destruct (__debug__ && _); [done |].
    destruct (exists_ st name) eqn:Hex; [| done]. destruct (h !! o); [| done].
    intros [= <-]. cbn [self].
    destruct (iter_names_stored st name (List.length h)) as [-> _].
    by apply od_real_keys_setitem_present.
  - destruct (exists_ st name) eqn:Hex; [| done].
    intros [= <-]. unfold iter_names. cbn [self _data].
    rewrite data_items_delitem. apply od_keys_delitem_filter.
Qed.

Lemma get_cases w w' name (copy : bool) r :
  get name copy w = (r, w') →
  w' = w
  ∨ ∃ o v, data_getitem name (_data (self w)) = Some o
           ∧ objects w !! o = Some v
           ∧ w' = {| self := self w; objects := objects w ++ [v] |}.
Proof.
  destruct w as [st h]. rewrite get_eq. cbn [self objects].
  destruct (data_getitem name (_data st)) as [o|] eqn:E;
    [| intros [= <- <-]; by left].
  destruct copy; [| intros [= <- <-]; by left].
  destruct (h !! o) as [v|] eqn:Ho; intros [= <- <-]; [| by left].
  right. by exists o, v.
Qed.




Lemma yield_values_grows (copy : bool) values h r h' :
  yield_values (K := K) copy values h = (r, h') → ∃ new, h' = h ++ new.
Proof.
  revert h r h'. induction values as [|value values IH]; intros h r h'.
  - intros [= <- <-]. exists []. by rewrite app_nil_r.
  - cbn [yield_values]. unfold bind at 1.
    assert (∃ r1 h1 new1,
              (if copy then obj_copy (K := K) value else ret value) h
              = (r1, h1) ∧ h1 = h ++ new1)
      as (r1 & h1 & new1 & -> & ->).
    { destruct copy; unfold obj_copy, ret.
      - destruct (h !! value) as [v|]; eexists _, _, _; split; try done.
        by rewrite app_nil_r.
      - eexists _, _, []. split; [done |]. by rewrite app_nil_r. }
    destruct r1 as [o' | e |].
    + unfold bind at 1.
      destruct (yield_values (K := K) copy values (h ++ new1))
        as [r2 h2] eqn:E2.
      destruct (IH _ _ _ E2) as [new2 ->].
      destruct r2; intros [= <- <-]; exists (new1 ++ new2);
        by rewrite app_assoc.
    + intros [= <- <-]. by exists new1.
    + intros [= <- <-]. by exists new1.
Qed.

(** X10.  The store operations only add objects to the heap: after [get],
    [iter_values], [create], [update] or [delete], however the call ends,
    every object that was there is there unchanged, under its reference. *)
Theorem heap_only_grows w w' name o :
  (∃ copy r, get name copy w = (r, w'))
  ∨ (∃ copy r, iter_values copy w = (r, w'))
  ∨ (∃ r, create name o w = (r, w') ∨ update name o w = (r, w')
          ∨ delete name w = (r, w')) →
  ∃ new, objects w' = objects w ++ new
    ∧ ∀ o' v', objects w !! o' = Some v' → objects w' !! o' = Some v'.
Proof.
  intros Hcall.
  assert (∃ new, objects w' = objects w ++ new) as [new Hnew].
  { destruct Hcall as [(copy & r & Hget) | [(copy & r & Hit) | (r & Hcall)]].
    - destruct (get_cases _ _ _ _ _ Hget) as [-> | (o' & v & _ & _ & ->)].
      + exists []. by rewrite app_nil_r.
      + by exists [v].
    - revert Hit. unfold iter_values, bind, gets, on_objects.
      destruct (yield_values (K := K) copy _ (objects w)) as [r1 h1] eqn:E1.
      destruct (yield_values_grows _ _ _ _ _ E1) as [new ->].
      destruct r1; intros [= <- <-]; by exists new.
    - destruct (call_cases _ _ _ _ _ Hcall)
        as [-> | [(v & _ & _ & _ & ->) | (_ & _ & ->)]].
      + exists []. by rewrite app_nil_r.
      + by exists [v].
      + exists []. by rewrite app_nil_r. }
  exists new. split; [done |].
  intros o' v' Ho'. rewrite Hnew. by apply lookup_app_l_Some.
Qed.

Lemma yield_values_copy values h vs :
  Forall2 (λ o v, h !! o = Some v) values vs →
  yield_values (K := K) true values h
    = (Return (seq (List.length h) (List.length values)), h ++ vs).
Proof.
  revert h vs. induction values as [|value values IH]; intros h vs Hvs.
  - apply Forall2_nil_inv_l in Hvs as ->. cbn. by rewrite app_nil_r.
  - apply Forall2_cons_inv_l in Hvs as (v & vs' & Hv & Hvs' & ->).
    cbn [yield_values List.length seq]. unfold bind at 1.
    unfold obj_copy at 1. rewrite Hv. unfold bind at 1.
    rewrite (IH (h ++ [v]) vs').
    + unfold ret. rewrite length_app. cbn [List.length].
      by rewrite Nat.add_1_r, <- app_assoc.
    + eapply Forall2_impl; [exact Hvs' |].
      intros ? ? E. by apply lookup_app_l_Some.
Qed.

Lemma yield_values_no_copy values h :
  yield_values (K := K) false values h = (Return values, h).
Proof.
  induction values as [|value values IH]; [done |].
  cbn [yield_values]. unfold bind, ret in *. by rewrite IH.
Qed.

(** X11.  In a store whose objects are instances of its type,
    [iter_values()] yields one new object for each object of the store, in
    the order of the store and equal to it, and leaves the store alone;
    [iter_values(copy=False)] yields the objects of the store themselves
    and changes nothing. *)
Theorem iter_values_yields w :
  objects_typed w →
  iter_values false w = (Return (data_values (_data (self w))), w)
  ∧ ∃ rs w', iter_values true w = (Return rs, w')
      ∧ self w' = self w
      ∧ List.length rs = len (self w)
      ∧ ∀ i o, data_values (_data (self w)) !! i = Some o →
          ∃ r, rs !! i = Some r
               ∧ (List.length (objects w) ≤ r)%nat
               ∧ objects w' !! r = objects w !! o
               ∧ is_Some (objects w !! o).
Proof.
  intros Hw. destruct w as [st h]. unfold iter_values, bind, gets, on_objects.
  cbn [self objects] in *. rewrite yield_values_no_copy. split; [done |].
  assert (∃ vs, Forall2 (λ o v, h !! o = Some v) (data_values (_data st)) vs)
    as [vs Hvs].
  { unfold objects_typed in Hw. cbn [self objects] in Hw.
    induction Hw as [|o' os Ho' _ [vs IH]]; [by exists [] |].
    destruct (isinstance_Some _ _ _ Ho') as (v & Hv & _).
    exists (v :: vs). by constructor. }
  rewrite (yield_values_copy _ _ _ Hvs). eexists _, _. split; [done |].
  cbn [self objects]. split; [done |]. split.
  { rewrite length_seq. unfold len, od_len, data_values.
    by rewrite length_fmap. }
  intros i o' Hi.
  destruct (Forall2_lookup_l _ _ _ _ _ Hvs Hi) as (v & Hv & Ho').
  exists (List.length h + i). split; [| split; [lia | split; [| by eexists]]].
  - apply lookup_seq. split; [done |]. by eapply lookup_lt_Some.
  - rewrite Ho'. rewrite lookup_app_r by lia.
    by replace (List.length h + i - List.length h) with i by lia.
Qed.
End object_store_more.

(** ** The repository: composition and invariants *)

Section repository_more.
Context {K : Type} `{EqDecision K} `{Lower K} {python : Assertions}.
Implicit Types (repo : InMemoryRepository K) (ns : string) (k : store_key).

Lemma od_delitem_setitem_absent {V} (real_key : string → string)
    (k k' : string) (v : V) d :
  od_contains real_key k d = false → real_key k' = real_key k →
  od_delitem real_key k' (od_setitem real_key k v d) = d.
Proof.
  intros Hk E. rewrite (od_setitem_absent real_key) by done.
  rewrite (od_contains_real_key real_key _ _ _ (eq_sym E)) in Hk.
  induction d as [|[k0 v0] d IH]; cbn in *.
  - unfold same_key. by rewrite bool_decide_eq_true_2.
  - apply orb_false_iff in Hk as [-> Hk]. by rewrite IH.
Qed.

Lemma repository_eta repo : {| _repository := _repository repo |} = repo.
Proof. by destruct repo. Qed.

(** X12.  [InMemoryRepository(initial_namespace)] always returns.  With no
    initial namespace, or the empty string, the repository has no
    namespace; with any other string it has exactly one, the string without
    its leading and trailing ['/']. *)
Theorem repository_init (initial_namespace : option string) :
  ∃ repo,
    InMemoryRepository_init (K := K) initial_namespace = (Return tt, repo)
    ∧ namespaces repo =
        match initial_namespace with
        | Some s => if bool_decide (s = EmptyString) then [] else [strip "/" s]
        | None => []
        end
    ∧ names_normalized repo.
Proof.
  unfold InMemoryRepository_init.
  destruct initial_namespace as [s|].
  - destruct (decide (s = EmptyString)) as [-> | Hs].
    + eexists. split; [done |]. split; [done |].
      split; [apply NoDup_nil_2 | apply Forall_nil_2].
    + rewrite bool_decide_eq_true_2 by (split; congruence).
      rewrite add_namespace_eq. cbn. eexists. split; [done |].
      rewrite bool_decide_eq_false_2 by done. split; [done |].
      split; cbn.
      * apply NoDup_singleton.
      * apply Forall_singleton, strip_idemp.
  - eexists. split; [done |]. split; [done |].
    split; [apply NoDup_nil_2 | apply Forall_nil_2].
Qed.

(** X13.  [remove_namespace] undoes [add_namespace]: removing a namespace
    that was just added, under the name it was added with or under one that
    differs in case or in leading and trailing ['/'] only, gives back the
    repository as it was before. *)
Theorem add_then_remove repo ns repo' ns' :
  add_namespace (Some ns) repo = (Return tt, repo') →
  str_lower (strip "/" ns') = str_lower (strip "/" ns) →
  remove_namespace (Some ns') repo' = (Return tt, repo).
Proof.
  rewrite add_namespace_eq. destruct (has_namespace repo ns) eqn:Hns; [done |].
  intros [= <-] E. rewrite remove_namespace_eq. cbn [_repository].
  rewrite od_getitem_setitem.
  unfold same_key. rewrite bool_decide_eq_true_2 by done. cbn.
  rewrite (od_delitem_setitem_absent lower) by done.
  by rewrite repository_eta.
Qed.

(** X14.  Adding or removing a namespace, however the call ends, leaves
    every other namespace alone: it exists as before, and each accessor
    returns for it what it returned before. *)
Theorem other_namespaces_untouched repo repo' ns r ns2 :
  add_namespace (Some ns) repo = (r, repo')
    ∨ remove_namespace (Some ns) repo = (r, repo') →
  str_lower (strip "/" ns2) ≠ str_lower (strip "/" ns) →
  has_namespace repo' ns2 = has_namespace repo ns2
  ∧ ∀ k, (accessor k (Some ns2) repo').1 = (accessor k (Some ns2) repo).1.
Proof.
  intros Hcall Hne.
  assert (od_getitem lower (strip "/" ns2) (_repository repo')
          = od_getitem lower (strip "/" ns2) (_repository repo)) as Hget.
  { destruct Hcall as [Hcall | Hcall]; revert Hcall.
    - rewrite add_namespace_eq.
      destruct (has_namespace repo ns); intros [= <- <-]; [done |].
      cbn [_repository]. rewrite od_getitem_setitem.
      unfold same_key. by rewrite bool_decide_eq_false_2.
    - rewrite remove_namespace_eq.
      destruct (od_getitem lower (strip "/" ns) (_repository repo));
        [| by intros [= <- <-]].
      destruct (_ || _); intros [= <- <-]; [done |].
      cbn [_repository]. rewrite od_getitem_delitem.
      unfold same_key. by rewrite bool_decide_eq_false_2. }
  split.
  - apply eq_true_iff_eq. by rewrite !has_namespace_getitem, Hget.
  - intros k.
    destruct (accessor_cases k repo' ns2) as [_ ->].
    destruct (accessor_cases k repo ns2) as [_ ->]. rewrite Hget.
    by destruct (od_getitem lower (strip "/" ns2) (_repository repo)).
Qed.

(** X15.  Reading never writes, and failing never writes:
    [validate_namespace] and the three accessors leave the repository as it
    is, however they end, and so do [add_namespace] and [remove_namespace]
    when they raise.  Both raise [ValueError] for [None]. *)
Theorem repository_unchanged repo repo' (namespace : option string) k :
  (∀ r, validate_namespace namespace repo = (r, repo') → repo' = repo)
  ∧ (∀ r, accessor k namespace repo = (r, repo') → repo' = repo)
  ∧ (∀ e, add_namespace namespace repo = (Raise e, repo') → repo' = repo)
  ∧ (∀ e, remove_namespace namespace repo = (Raise e, repo') → repo' = repo)
  ∧ add_namespace None repo
    = (Raise (ValueError namespace_must_not_be_None), repo)
  ∧ remove_namespace None repo
    = (Raise (ValueError namespace_must_not_be_None), repo).
Proof.
  destruct namespace as [ns|].
  - rewrite validate_namespace_eq, add_namespace_eq, remove_namespace_eq.
    destruct (accessor_cases k repo ns) as [_ ->].
    repeat split; try done.
    + intros r. by destruct (has_namespace repo ns); intros [= <- <-].
    + intros r. by destruct (od_getitem _ _ _); intros [= <- <-].
    + intros e. by destruct (has_namespace repo ns); intros [= <-].
    + intros e. destruct (od_getitem _ _ _); [| by intros [= <-]].
      by destruct (_ || _); intros [= <-].
  - destruct (accessor_cases k repo EmptyString) as [-> _].
    repeat split; try done; by intros ? [= <-].
Qed.

(** X16.  The namespace names stay normalized and distinct without regard
    to case: if they were before [add_namespace] or [remove_namespace],
    they are after it, however the call ends. *)
Theorem names_normalized_kept repo repo' (namespace : option string) r :
  add_namespace namespace repo = (r, repo')
    ∨ remove_namespace namespace repo = (r, repo') →
  names_normalized repo → names_normalized repo'.
Proof.
  intros Hcall [Hdup Hnorm].
  destruct namespace as [ns|];
    [| by destruct Hcall as [[= <- <-] | [= <- <-]]].
  destruct Hcall as [Hcall | Hcall]; revert Hcall.
  - rewrite add_namespace_eq.
    destruct (has_namespace repo ns) eqn:Hns; intros [= <- <-]; [done |].
    split; unfold namespaces; cbn [_repository].
    + by apply (od_NoDup_setitem lower).
    + rewrite (od_keys_setitem_absent lower) by done.
      apply Forall_app. split; [done |].
      apply Forall_singleton, strip_idemp.
  - rewrite remove_namespace_eq.
    destruct (od_getitem lower (strip "/" ns) (_repository repo));
      [| by intros [= <- <-]].
    destruct (_ || _); intros [= <- <-]; [done |].
    split; unfold namespaces; cbn [_repository].
    + by apply (od_NoDup_delitem lower).
    + rewrite (od_keys_delitem_filter lower).
      rewrite Forall_forall in Hnorm. apply Forall_forall.
      intros x [_ Hx]%list_elem_of_filter. by apply Hnorm.
Qed.

(** X17.  The [namespaces] property and [validate_namespace] agree: a name
    validates exactly when the list has a name equal to it up to case and
    leading and trailing ['/'], and when the names of the list are
    normalized, every name of the list validates and each accessor returns
    a store for it. *)
Theorem namespaces_validate repo :
  (∀ ns, validate_namespace (Some ns) repo = (Return tt, repo) ↔
         ∃ n, n ∈ namespaces repo
              ∧ str_lower n = str_lower (strip "/" ns))
  ∧ (names_normalized repo →
     ∀ n, n ∈ namespaces repo →
       validate_namespace (Some n) repo = (Return tt, repo)
       ∧ ∀ k, returned (accessor k (Some n)) repo = true).
Proof.
  assert (∀ ns, has_namespace repo ns = true ↔
                ∃ n, n ∈ namespaces repo
                     ∧ str_lower n = str_lower (strip "/" ns)) as Hhas
    by (intros ns; apply (od_contains_elem lower)).
  split.
  - intros ns. rewrite validate_namespace_eq, <- Hhas.
    by destruct (has_namespace repo ns).
  - intros [_ Hnorm] n Hn.
    assert (has_namespace repo n = true) as Hex.
    { apply Hhas. exists n. split; [done |].
      rewrite Forall_forall in Hnorm. by rewrite (Hnorm _ Hn). }
    split; [by rewrite validate_namespace_eq, Hex |].
    intros k. unfold returned.
    destruct (accessor_cases k repo n) as [_ ->].
    by apply has_namespace_getitem in Hex as [d ->].
Qed.
End repository_more.

(** ** [import_installed] *)

Lemma py_index_None x l : py_index x l = None ↔ x ∉ l.
Proof.
  induction l as [|y l IH]; cbn.
  - split; [intros _; apply not_elem_of_nil | done].
  - rewrite not_elem_of_cons. case_decide as Hy.
    + split; [done | intros [Hx _]; congruence].
    + rewrite fmap_None, IH. split; [intros Hx | by intros [_ Hx]].
      split; [congruence | done].
Qed.

Lemma py_index_Some x l ix :
  py_index x l = Some ix →
  ∃ l1 l2, l = l1 ++ x :: l2 ∧ (x ∉ l1) ∧ List.length l1 = ix.
Proof.
  revert ix. induction l as [|y l IH]; intros ix; cbn; [done |].
  case_decide as Hy.
  - intros [= <-]. subst y. exists [], l. split; [done |].
    split; [apply not_elem_of_nil | done].
  - destruct (py_index x l) as [ix'|]; cbn; [| done]. intros [= <-].
    destruct (IH _ eq_refl) as (l1 & l2 & -> & Hx & <-).
    exists (y :: l1), l2. split; [done |]. split; [| done].
    rewrite not_elem_of_cons. split; [congruence | done].
Qed.

Lemma filter_not_elem (x : string) (l : list string) :
  x ∉ l → base.filter (λ y, y ≠ x) l = l.
Proof.
  induction l as [|y l IH]; [done |].
  rewrite not_elem_of_cons, filter_cons. intros [Hy Hl].
  rewrite decide_True by congruence. by rewrite IH.
Qed.

Lemma filter_middle (x : string) (l1 l2 : list string) :
  base.filter (λ y, y ≠ x) (l1 ++ x :: l2) = base.filter (λ y, y ≠ x) (l1 ++ l2).
Proof.
  rewrite !filter_app, filter_cons. by rewrite decide_False by (by intros ?).
Qed.

Section import_installed_facts.
Context {module error : Type} (__file__ : module → option string).
Context (__import__ : string → interpreter module
                      → (module + error) * interpreter module).
Implicit Types (s : interpreter module) (t : option string).

Lemma debug_print_fields t line s :
  sys_path (debug_print t line s) = sys_path s
  ∧ sys_modules (debug_print t line s) = sys_modules s
  ∧ (t ≠ Some "DEBUG" → stdout (debug_print t line s) = stdout s).
Proof.
  unfold debug_print. case_bool_decide; cbn; [| done].
  split; [done |]. split; [done |]. by intros ?.
Qed.

(** What the loop leaves: the path without [dirpath], then [dirpath]. *)
Lemma move_to_end_spec t dirpath s :
  sys_path (move_to_end t dirpath s)
    = base.filter (λ x, x ≠ dirpath) (sys_path s) ++ [dirpath]
  ∧ sys_modules (move_to_end t dirpath s) = sys_modules s
  ∧ (t ≠ Some "DEBUG" → stdout (move_to_end t dirpath s) = stdout s).
Proof.
  funelim (move_to_end t dirpath s).
  - destruct (py_index_Some _ _ _ E) as (l1 & l2 & Hl & Hnotin & Hlen).
    case_decide as Hlast.
    + split; [| done]. rewrite Hl in Hlast |- *.
      rewrite length_app in Hlast. cbn in Hlast.
      assert (l2 = []) as -> by (destruct l2; [done | cbn in Hlast; lia]).
      by rewrite filter_middle, app_nil_r, filter_not_elem.
    + match goal with IH : _ → _ ∧ _ |- _ =>
        destruct (IH Hlast) as (Hp & Hm & Ho) end.
      destruct (debug_print_fields test_installed
                  (Removing_from_path dirpath ix) s) as (Hp' & Hm' & Ho').
      cbn [with_sys_path sys_path sys_modules stdout] in Hp, Hm, Ho.
      rewrite Hp, Hm, ?Hp', ?Hm'. split; [| split; [done |]].
      * rewrite Hl, <- Hlen, filter_middle. f_equal. f_equal.
        clear. induction l1; [done |]. cbn. by f_equal.
      * intros Ht. by rewrite Ho, Ho'.
  - destruct (debug_print_fields test_installed
                (Appending_to_path dirpath) s) as (Hp & Hm & Ho).
    cbv zeta. cbn [with_sys_path sys_path sys_modules stdout].
    rewrite Hp, Hm.
    match goal with E : py_index _ _ = None |- _ =>
      rewrite (filter_not_elem _ _ (proj1 (py_index_None _ _) E)) end.
    done.
Qed.

(** The path without its first [''] entry. *)
Lemma remove_empty_dirpath_spec t s :
  sys_path (remove_empty_dirpath t s)
    = match py_index EmptyString (sys_path s) with
      | Some ix => base.delete ix (sys_path s)
      | None => sys_path s
      end
  ∧ sys_modules (remove_empty_dirpath t s) = sys_modules s
  ∧ (t ≠ Some "DEBUG" → stdout (remove_empty_dirpath t s) = stdout s).
Proof.
  unfold remove_empty_dirpath.
  destruct (py_index EmptyString (sys_path s)) as [ix|]; [| done].
  destruct (debug_print_fields t (Removing_from_path EmptyString ix) s)
    as (Hp & Hm & Ho).
  cbv zeta. cbn [with_sys_path sys_path sys_modules stdout].
  by rewrite Hp, Hm.
Qed.

Lemma count_filter_other (x y : string) (l : list string) :
  x ≠ y →
  List.length (base.filter (λ z, z = x) (base.filter (λ z, z ≠ y) l))
    = List.length (base.filter (λ z, z = x) l).
Proof.
  intros Hxy. induction l as [|z l IH]; [done |].
  rewrite !filter_cons.
  destruct (decide (z ≠ y)) as [Hz | Hz]; destruct (decide (z = x)) as [-> | Hx];
    rewrite ?filter_cons, ?decide_True, ?decide_False by done; cbn;
    by rewrite IH.
Qed.

Lemma count_filter_same (x : string) (l : list string) :
  base.filter (λ z, z = x) (base.filter (λ z, z ≠ x) l) = [].
Proof.
  induction l as [|z l IH]; [done |].
  rewrite filter_cons. destruct (decide (z ≠ x)); [| done].
  rewrite filter_cons. by rewrite decide_False.
Qed.

(** X18.  With [TEST_INSTALLED] set, the module search path is left as
    follows: its first [''] entry is taken out, every entry equal to the
    current directory is taken out, the other entries keep their order, and
    the current directory is put at the end, where it then stands exactly
    once.  [sys.modules] is not touched, and nothing is printed unless
    [TEST_INSTALLED] is ['DEBUG']. *)
Theorem cwd_moved_to_end t cwd s :
  let s' := move_to_end t cwd (remove_empty_dirpath t s) in
  sys_path s' =
    base.filter (λ x, x ≠ cwd)
      (match py_index EmptyString (sys_path s) with
       | Some ix => base.delete ix (sys_path s)
       | None => sys_path s
       end) ++ [cwd]
  ∧ last (sys_path s') = Some cwd
  ∧ List.length (base.filter (λ x, x = cwd) (sys_path s')) = 1
  ∧ sys_modules s' = sys_modules s
  ∧ (t ≠ Some "DEBUG" → stdout s' = stdout s).
Proof.
  intros s'. unfold s'.
  destruct (move_to_end_spec t cwd (remove_empty_dirpath t s))
    as (Hp & Hm & Ho).
  destruct (remove_empty_dirpath_spec t s) as (Hp' & Hm' & Ho').
  rewrite Hp, Hm, Hp', Hm'. split; [done |].
  split; [apply last_snoc |]. split; [| split; [done |]].
  - rewrite filter_app, count_filter_same, filter_cons, decide_True by done.
    done.
  - intros Ht. by rewrite Ho, Ho'.
Qed.

(** X19.  With [TEST_INSTALLED] set, an entry of the module search path
    other than the current directory is there as often as before, except
    [''], which is there once less: only its first occurrence is
    removed. *)
Theorem other_entries_kept t cwd s x :
  x ≠ cwd →
  let count l := List.length (base.filter (λ y, y = x) l) in
  count (sys_path (move_to_end t cwd (remove_empty_dirpath t s)))
    = count (sys_path s) - (if decide (x = EmptyString) then 1 else 0).
Proof.
  intros Hx count. unfold count.
  destruct (move_to_end_spec t cwd (remove_empty_dirpath t s)) as (-> & _).
  destruct (remove_empty_dirpath_spec t s) as (-> & _).
  rewrite filter_app, length_app, count_filter_other by done.
  rewrite filter_cons, decide_False by congruence. cbn [List.length].
  rewrite Nat.add_0_r.
  destruct (py_index EmptyString (sys_path s)) as [ix|] eqn:E.
  - destruct (py_index_Some _ _ _ E) as (l1 & l2 & -> & Hnotin & <-).
    replace (base.delete (List.length l1) (l1 ++ EmptyString :: l2))
      with (l1 ++ l2)
      by (clear; induction l1; [done | cbn; by f_equal]).
    rewrite !filter_app, !length_app, filter_cons.
    case_decide as Hempty.
    + rewrite decide_True by done. cbn [List.length]. lia.
    + rewrite decide_False by congruence. lia.
  - apply py_index_None in E. case_decide as Hempty; [| lia].
    subst x. clear Hx.
    assert (base.filter (λ y, y = EmptyString) (sys_path s) = []) as ->;
      [| done].
    induction (sys_path s) as [|y l IH]; [done |].
    apply not_elem_of_cons in E as [Hy Hl].
    rewrite filter_cons, decide_False by congruence. by apply IH.
Qed.

(** X20.  A module that is already in [sys.modules] is taken from there,
    without a call of [__import__], and [sys.modules] stays as it is.
    Unless [TEST_INSTALLED] is ['DEBUG'], the module is returned and nothing
    is printed.  With ['DEBUG'] the [__file__] of the module is read for the
    line to print: the module is returned, after the line with its file was
    printed, if it has the attribute, and the call raises [AttributeError],
    with that line not printed, if it has not.  With [TEST_INSTALLED] unset
    or empty the module search path is not touched either; otherwise it is
    left as the two blocks leave it, also where the call raises. *)
Theorem import_installed_cached t cwd module_name s (m : module) :
  od_getitem id module_name (sys_modules s) = Some m →
  let result := import_installed __file__ __import__ t cwd module_name s in
  let s1 := if truthy t then move_to_end t cwd (remove_empty_dirpath t s)
            else s in
  (t ≠ Some "DEBUG" → result.1 = Imported m ∧ stdout result.2 = stdout s)
  ∧ (t = Some "DEBUG" →
     match __file__ m with
     | Some file =>
         result.1 = Imported m
         ∧ stdout result.2
           = stdout s1 ++ [module_already_loaded module_name file]
     | None =>
         result.1 = AttributeError_raised "__file__"
         ∧ stdout result.2 = stdout s1
     end)
  ∧ sys_modules result.2 = sys_modules s
  ∧ sys_path result.2 = sys_path s1
  ∧ (truthy t = false → sys_path result.2 = sys_path s).
Proof.
  intros Hm result s1. unfold result, import_installed. fold s1.
  assert (sys_modules s1 = sys_modules s
          ∧ (t ≠ Some "DEBUG" → stdout s1 = stdout s)) as [Hm1 Ho1].
  { unfold s1. destruct (truthy t); [| done].
    destruct (move_to_end_spec t cwd (remove_empty_dirpath t s))
      as (_ & -> & Ho).
    destruct (remove_empty_dirpath_spec t s) as (_ & -> & Ho').
    split; [done |]. intros Ht. by rewrite Ho, Ho'. }
  rewrite Hm1, Hm.
  assert (od_contains id module_name (sys_modules s) = true) as ->
    by (apply od_contains_getitem; eauto).
  cbn [negb]. unfold print_file_and_return, debug_print.
  assert (truthy t = false → sys_path s1 = sys_path s) as Hpath
    by (unfold s1; by intros ->).
  case_bool_decide as Ht.
  - destruct (__file__ m) as [file|]; cbn [fst snd sys_path sys_modules stdout];
      (split; [done |]); (split; [done |]); done.
  - cbn [fst snd]. split; [by intros _; split; [| apply Ho1] |].
    split; [done |]. done.
Qed.
End import_installed_facts.

(** ** Runs of the further properties on the samples *)

Section further_runs.
#[local] Existing Instance assertions_on.

Lemma get_without_copy_is_stored_object_witness :
  data_getitem "FOO" (_data (self class_world_Foo)) = Some 2
  ∧ objects class_world_Foo !! 2 = Some Foo_class
  ∧ get "FOO" false class_world_Foo = (Return 2, class_world_Foo)
  ∧ ∃ r w', get "FOO" true
              {| self := self class_world_Foo;
                 objects := mutate 2 Bar_class (objects class_world_Foo) |}
            = (Return r, w')
            ∧ objects w' !! r = Some Bar_class.
Proof.
  split; [reflexivity |]. split; [reflexivity |].
  pose proof (get_without_copy_is_stored_object (self class_world_Foo)
                (objects class_world_Foo) "FOO" 2 Foo_class eq_refl eq_refl)
    as [Hget Hmut].
  split; [exact Hget | exact (Hmut Bar_class)].
Defined.

Lemma store_copies_argument_witness :
  caller_heap !! 0 = Some Foo_class
  ∧ create "Foo" 0 {| self := class_store; objects := caller_heap |}
    = (Return tt, class_world_Foo)
  ∧ ∃ r w2,
      get "Foo" true {| self := self class_world_Foo;
                        objects := mutate 0 Bar_class (objects class_world_Foo) |}
        = (Return r, w2)
      ∧ objects w2 !! r = Some Foo_class.
Proof.
  split; [reflexivity |]. split; [reflexivity |].
  exact (proj2 (store_copies_argument class_store caller_heap "Foo" 0 Foo_class
                  class_world_Foo eq_refl (or_introl eq_refl) Bar_class)).
Defined.

Lemma exists_after_witness :
  create "Foo" 0 {| self := class_store; objects := caller_heap |}
  = (Return tt, class_world_Foo)
  ∧ exists_ (self class_world_Foo) "FOO" = true
  ∧ exists_ (self class_world_Foo) "Bar" = false.
Proof.
  split; [reflexivity |].
  pose proof (proj1 (exists_after class_store caller_heap "Foo" 0
                       class_world_Foo) eq_refl) as Hex.
  split; [exact (Hex "FOO") | exact (Hex "Bar")].
Defined.

Lemma other_names_untouched_witness :
  let call := create "Bar" 0 class_world_Foo in
  call.1 = Return tt
  ∧ str_lower "Bar" ≠ str_lower "foo"
  ∧ data_getitem "foo" (_data (self class_world_Foo)) = Some 2
  ∧ data_getitem "foo" (_data (self call.2)) = Some 2
  ∧ objects call.2 !! 2 = Some Foo_class.
Proof.
  intros call. split; [reflexivity |].
  assert (str_lower "Bar" ≠ str_lower "foo") as Hne by discriminate.
  split; [exact Hne |]. split; [reflexivity |].
  exact (other_names_untouched class_world_Foo call.2 "Bar" 0 call.1 "foo" 2
           (or_introl eq_refl) Hne eq_refl (mk_is_Some _ _ eq_refl)).
Defined.

Lemma delete_then_witness :
  let w' := {| self := class_store; objects := objects class_world_Foo |} in
  delete "FOO" class_world_Foo = (Return tt, w')
  ∧ exists_ (self w') "Foo" = false
  ∧ delete "FOO" w'
    = (Raise (KeyError (not_in_object_store "FOO" CIMClass)), w').
Proof.
  intros w'. split; [reflexivity |].
  pose proof (delete_then (self class_world_Foo) (objects class_world_Foo)
                "FOO" w' eq_refl) as (_ & _ & _ & Hdel & _).
  split; [reflexivity | exact Hdel].
Defined.

Lemma keys_distinct_kept_witness :
  keys_distinct (self class_world_Foo)
  ∧ keys_distinct (self (create "Bar" 0 class_world_Foo).2)
  ∧ keys_distinct (self (update "FOO" 0 class_world_Foo).2).
Proof.
  assert (keys_distinct (self class_world_Foo)) as Hd
    by apply NoDup_singleton.
  split; [exact Hd |]. split.
  - exact (proj2 (keys_distinct_kept class_world_Foo _ "Bar" 0 _)
             (or_introl eq_refl) Hd).
  - exact (proj2 (keys_distinct_kept class_world_Foo _ "FOO" 0 _)
             (or_intror (or_introl eq_refl)) Hd).
Defined.

Lemma len_after_witness :
  keys_distinct (self class_world_Foo)
  ∧ len (self class_world_Foo) = S (len class_store)
  ∧ S (len (self (delete "foo" class_world_Foo).2))
    = len (self class_world_Foo).
Proof.
  assert (keys_distinct (self class_world_Foo)) as Hd
    by apply NoDup_singleton.
  split; [exact Hd |]. split.
  - exact (proj1 (len_after class_store caller_heap "Foo" 0 class_world_Foo)
             eq_refl).
  - exact (proj2 (proj2 (len_after (self class_world_Foo)
                           (objects class_world_Foo) "foo" 0 _))
             eq_refl Hd).
Defined.

Lemma iter_names_after_witness :
  create "Foo" 0 {| self := class_store; objects := caller_heap |}
  = (Return tt, class_world_Foo)
  ∧ iter_names (self class_world_Foo) = iter_names class_store ++ ["Foo"]
  ∧ iter_names (self (delete "FOO" class_world_Foo).2) = [].
Proof.
  split; [reflexivity |]. split.
  - exact (proj1 (iter_names_after class_store caller_heap "Foo" 0
                    class_world_Foo) eq_refl).
  - exact (proj2 (proj2 (iter_names_after (self class_world_Foo)
                           (objects class_world_Foo) "FOO" 0 _)) eq_refl).
Defined.


(** Without assertions the objects of a store need not be of its type: the
    class store takes the instance at reference 1. *)
Example objects_typed_lost_without_assertions :
  objects_typed {| self := class_store; objects := caller_heap |}
  ∧ ∃ w', create (python := assertions_off) "Foo" 1
            {| self := class_store; objects := caller_heap |}
          = (Return tt, w')
          ∧ ¬ objects_typed w'.
Proof.
  split; [apply Forall_nil_2 |]. eexists. split; [reflexivity |].
  intros Hw. unfold objects_typed, data_values in Hw. cbn in Hw.
  rewrite Forall_singleton in Hw. discriminate Hw.
Qed.

Lemma heap_only_grows_witness :
  ∃ new, objects (get "Foo" true class_world_Foo).2
         = objects class_world_Foo ++ new.
Proof.
  edestruct (heap_only_grows class_world_Foo
               (get "Foo" true class_world_Foo).2 "Foo" 0)
    as (new & Hnew & _).
  - left. exists true. eexists. reflexivity.
  - exists new. exact Hnew.
Defined.

Lemma iter_values_yields_witness :
  objects_typed class_world_Foo
  ∧ iter_values false class_world_Foo = (Return [2], class_world_Foo)
  ∧ ∃ rs w', iter_values true class_world_Foo = (Return rs, w')
             ∧ List.length rs = 1.
Proof.
  assert (objects_typed class_world_Foo) as Hw
    by (apply Forall_singleton; reflexivity).
  split; [exact Hw |].
  destruct (iter_values_yields class_world_Foo Hw)
    as (Hno & rs & w' & Hit & _ & Hlen & _).
  split; [exact Hno |]. exists rs, w'. split; [exact Hit | exact Hlen].
Defined.

Lemma add_then_remove_witness :
  add_namespace (Some "/root/Test/") empty_repo = (Return tt, repo_test)
  ∧ str_lower (strip "/" "ROOT/TEST//") = str_lower (strip "/" "/root/Test/")
  ∧ remove_namespace (Some "ROOT/TEST//") repo_test = (Return tt, empty_repo).
Proof.
  split; [reflexivity |]. split; [reflexivity |].
  exact (add_then_remove empty_repo "/root/Test/" repo_test "ROOT/TEST//"
           eq_refl eq_refl).
Defined.

Lemma other_namespaces_untouched_witness :
  let call := add_namespace (Some "cimv2") repo_test_Foo in
  call.1 = Return tt
  ∧ str_lower (strip "/" "ROOT/test") ≠ str_lower (strip "/" "cimv2")
  ∧ has_namespace call.2 "ROOT/test" = true
  ∧ (get_class_repo (Some "ROOT/test") call.2).1
    = Return (self class_world_Foo).
Proof.
  intros call. split; [reflexivity |].
  assert (str_lower (strip "/" "ROOT/test") ≠ str_lower (strip "/" "cimv2"))
    as Hne by discriminate.
  split; [exact Hne |].
  pose proof (other_namespaces_untouched repo_test_Foo call.2 "cimv2" call.1
                "ROOT/test" (or_introl eq_refl) Hne) as [Hhas Hacc].
  split; [exact Hhas | exact (Hacc classes_key)].
Defined.

Lemma repository_unchanged_witness :
  add_namespace (Some "ROOT/test") repo_test
  = (Raise (ValueError (namespace_already_in_repository "ROOT/test")), repo_test)
  ∧ (remove_namespace (Some "ROOT/test") repo_test_Foo).2 = repo_test_Foo
  ∧ remove_namespace None repo_test
    = (Raise (ValueError namespace_must_not_be_None), repo_test).
Proof.
  split; [reflexivity |].
  pose proof (repository_unchanged repo_test_Foo
                (remove_namespace (Some "ROOT/test") repo_test_Foo).2
                (Some "ROOT/test") classes_key) as (_ & _ & _ & Hremove & _).
  split; [exact (Hremove _ eq_refl) |].
  exact (proj2 (proj2 (proj2 (proj2 (proj2
           (repository_unchanged repo_test repo_test None classes_key)))))).
Defined.

Lemma names_normalized_kept_witness :
  names_normalized repo_test
  ∧ names_normalized (add_namespace (Some "//Interop") repo_test).2
  ∧ namespaces (add_namespace (Some "//Interop") repo_test).2
    = ["root/Test"; "Interop"].
Proof.
  assert (names_normalized repo_test) as Hn.
  { split; [apply NoDup_singleton |]. apply Forall_singleton. reflexivity. }
  split; [exact Hn |]. split; [| reflexivity].
  exact (names_normalized_kept repo_test _ (Some "//Interop") _
           (or_introl eq_refl) Hn).
Defined.

Lemma namespaces_validate_witness :
  names_normalized repo_test
  ∧ "root/Test" ∈ namespaces repo_test
  ∧ validate_namespace (Some "root/Test") repo_test = (Return tt, repo_test).
Proof.
  assert (names_normalized repo_test) as Hn.
  { split; [apply NoDup_singleton |]. apply Forall_singleton. reflexivity. }
  assert ("root/Test" ∈ namespaces repo_test) as Hin by apply list_elem_of_here.
  split; [exact Hn |]. split; [exact Hin |].
  exact (proj1 (proj2 (namespaces_validate repo_test) Hn _ Hin)).
Defined.

Lemma cwd_moved_to_end_witness :
  Some "1" ≠ Some "DEBUG"
  ∧ sys_path (move_to_end (Some "1") "/cwd"
                (remove_empty_dirpath (Some "1") sample_interpreter))
    = ["/usr/lib"; EmptyString; "/cwd"]
  ∧ stdout (move_to_end (Some "1") "/cwd"
              (remove_empty_dirpath (Some "1") sample_interpreter)) = [].
Proof.
  assert (Some "1" ≠ Some "DEBUG") as Ht by discriminate.
  split; [exact Ht |].
  pose proof (cwd_moved_to_end (Some "1") "/cwd" sample_interpreter)
    as (Hpath & _ & _ & _ & Hout).
  split; [exact Hpath | exact (Hout Ht)].
Defined.

Lemma other_entries_kept_witness :
  let path' := sys_path (move_to_end (Some "DEBUG") "/cwd"
                           (remove_empty_dirpath (Some "DEBUG")
                              sample_interpreter)) in
  EmptyString ≠ "/cwd"
  ∧ List.length (base.filter (λ y, y = EmptyString) path') = 1
  ∧ List.length (base.filter (λ y, y = EmptyString)
                   (sys_path sample_interpreter)) = 2.
Proof.
  intros path'.
  assert (EmptyString ≠ "/cwd") as Hx by discriminate.
  split; [exact Hx |]. split; [| reflexivity].
  exact (other_entries_kept (Some "DEBUG") "/cwd" sample_interpreter
           EmptyString Hx).
Defined.

Lemma import_installed_cached_witness :
  (od_getitem id "pywbem" (sys_modules sample_interpreter)
   = Some (Some "/cwd/pywbem/__init__.py")
   ∧ import_installed id no_import None "/cwd" "pywbem" sample_interpreter
     = (Imported (Some "/cwd/pywbem/__init__.py"), sample_interpreter)
   ∧ (import_installed id no_import (Some "DEBUG") "/cwd" "pywbem"
        sample_interpreter).1
     = Imported (Some "/cwd/pywbem/__init__.py"))
  ∧ (od_getitem id "sys" (sys_modules sample_interpreter) = Some None
     ∧ (import_installed id no_import (Some "1") "/cwd" "sys"
          sample_interpreter).1
       = Imported None
     ∧ (import_installed id no_import (Some "DEBUG") "/cwd" "sys"
          sample_interpreter).1
       = AttributeError_raised "__file__").
Proof.
  split.
  - split; [reflexivity |]. split; [reflexivity |].
    exact (proj1 (proj1 (proj2 (import_installed_cached id no_import
                                  (Some "DEBUG") "/cwd" "pywbem"
                                  sample_interpreter _ eq_refl))
                    eq_refl)).
  - split; [reflexivity |]. split.
    + exact (proj1 (proj1 (import_installed_cached id no_import
                             (Some "1") "/cwd" "sys"
                             sample_interpreter _ eq_refl)
                      ltac:(discriminate))).
    + exact (proj1 (proj1 (proj2 (import_installed_cached id no_import
                                    (Some "DEBUG") "/cwd" "sys"
                                    sample_interpreter _ eq_refl))
                      eq_refl)).
Defined.

Example import_installed_debug_output :
  stdout (import_installed id no_import (Some "DEBUG") "/cwd" "pywbem"
            sample_interpreter).2
  = [Removing_from_path EmptyString 0;
     Removing_from_path "/cwd" 0;
     module_already_loaded "pywbem" "/cwd/pywbem/__init__.py"]
  ∧ stdout (import_installed id no_import (Some "DEBUG") "/cwd" "sys"
              sample_interpreter).2
    = [Removing_from_path EmptyString 0; Removing_from_path "/cwd" 0]
  ∧ (import_installed id no_import (Some "1") "/cwd" "os"
       {| sys_path := ["/usr/lib"]; sys_modules := []; stdout := [] |})
    = (Import_raised "os",
       {| sys_path := ["/usr/lib"; "/cwd"]; sys_modules := [];
          stdout := [] |})
  ∧ (import_installed id (λ name s, (inl None, s)) (Some "DEBUG") "/cwd" "os"
       {| sys_path := ["/cwd"]; sys_modules := []; stdout := [] |})
    = (AttributeError_raised (error := string) "__file__",
       {| sys_path := ["/cwd"]; sys_modules := []; stdout := [] |}).
Proof. repeat split. Qed.

End further_runs.

(** ** [print_repository] *)

Section print_repository_facts.
Context {K : Type} `{EqDecision K} `{Lower K} {python : Assertions}.
Implicit Types (h : heap) (d : namespace_dict K).

Lemma format_values_spec values h vs :
  Forall2 (λ o v, h !! o = Some v) values vs →
  format_values (K := K) values h = (Return vs, h ++ vs).
Proof.
  revert h vs. induction values as [|value values IH]; intros h vs Hvs.
  - apply Forall2_nil_inv_l in Hvs as ->. cbn. by rewrite app_nil_r.
  - apply Forall2_cons_inv_l in Hvs as (v & vs' & Hv & Hvs' & ->).
    cbn [format_values]. unfold bind at 1. unfold obj_copy at 1.
    rewrite Hv. unfold bind at 1, read_object at 1.
    rewrite lookup_snoc. unfold bind at 1.
    rewrite (IH (h ++ [v]) vs').
    + unfold ret. by rewrite <- app_assoc.
    + eapply Forall2_impl; [exact Hvs' |].
      intros ? ? E. by apply lookup_app_l_Some.
Qed.

Lemma objstore_info_first (k : store_key) n1 d1 rest h out vs :
  strip "/" n1 = n1 →
  Forall2 (λ o v, h !! o = Some v) (data_values (_data (store_of k d1))) vs →
  let repo := {| _repository := (n1, d1) :: rest |} in
  let objstore_name := match k with
                       | classes_key => "class"
                       | instances_key => "instance"
                       | qualifiers_key => "qualifier"
                       end in
  objstore_info objstore_name
    {| repository := repo; session_objects := h; dest := out |}
  = (Return (Some {| info_namespace := n1;
                     info_objstore_name := objstore_name;
                     info_len := len (store_of k d1);
                     info_values := vs |}),
     {| repository := repo; session_objects := h ++ vs; dest := out |}).
Proof.
  intros Hn1 Hvs repo objstore_name.
  assert (accessor k (Some n1) repo = (Return (store_of k d1), repo)) as Hacc.
  { destruct (accessor_cases k repo n1) as [_ ->]. cbn. rewrite Hn1.
    unfold same_key. by rewrite bool_decide_eq_true_2. }
  subst repo. unfold objstore_info. unfold bind at 1, gets at 1.
  cbn [repository _repository od_keys fmap list_fmap fst].
  unfold bind at 1.
  assert ((if bool_decide (objstore_name = "class") then
             on_repository (get_class_repo (Some n1))
           else if bool_decide (objstore_name = "qualifier") then
             on_repository (get_qualifier_repo (Some n1))
           else if bool_decide (objstore_name = "instance") then
             on_repository (get_instance_repo (Some n1))
           else
             do _ <- assert_ (bool_decide (objstore_name = "instance"));
             on_repository (get_instance_repo (Some n1)))
            {| repository := {| _repository := (n1, d1) :: rest |};
               session_objects := h; dest := out |}
          = (Return (store_of k d1),
             {| repository := {| _repository := (n1, d1) :: rest |};
                session_objects := h; dest := out |}))
    as ->.
  { unfold objstore_name. destruct k; cbn [accessor] in Hacc;
      repeat match goal with
        | |- context [bool_decide (?a = ?b)] =>
            let v := eval vm_compute in (bool_decide (a = b)) in
            change (bool_decide (a = b)) with v
        end;
      unfold on_repository; cbn [repository]; by rewrite Hacc. }
  unfold bind at 1, on_session_objects. cbn [session_objects].
  by rewrite (format_values_spec _ _ _ Hvs).
Qed.

(** X21.  [print_repository] writes the names of all namespaces, but the
    qualifier declarations, classes and instances of the first namespace
    only (and [None] for each when there is no namespace): the stores of
    the other namespaces are not looked at.  It leaves the repository as it
    is, and every object it formats is a new copy. *)
Theorem print_repository_first_namespace n1 d1 rest h out vq vc vi :
  print_repository
    {| repository := {| _repository := [] |} : InMemoryRepository K;
       session_objects := h; dest := out |}
  = (Return tt,
     {| repository := {| _repository := [] |}; session_objects := h;
        dest := out ++ [NAMESPACES_line []; QUALIFIERS_line None;
                        CLASSES_line None; INSTANCES_line None] |})
  ∧ (strip "/" n1 = n1 →
     Forall2 (λ o v, h !! o = Some v) (data_values (_data (qualifiers d1))) vq →
     Forall2 (λ o v, h !! o = Some v) (data_values (_data (classes d1))) vc →
     Forall2 (λ o v, h !! o = Some v) (data_values (_data (instances d1))) vi →
     let repo := {| _repository := (n1, d1) :: rest |} in
     let info objstore_name store vs :=
       Some {| info_namespace := n1; info_objstore_name := objstore_name;
               info_len := len store; info_values := vs |} in
     print_repository {| repository := repo; session_objects := h; dest := out |}
     = (Return tt,
        {| repository := repo;
           session_objects := h ++ vq ++ vc ++ vi;
           dest := out ++ [NAMESPACES_line (n1 :: rest.*1);
                           QUALIFIERS_line (info "qualifier" (qualifiers d1) vq);
                           CLASSES_line (info "class" (classes d1) vc);
                           INSTANCES_line (info "instance" (instances d1) vi)]
        |})).
Proof.
  split.
  { unfold print_repository, bind, gets, uprint, modify, objstore_info, ret.
    cbn. by rewrite <- !app_assoc. }
  intros Hn1 Hq Hc Hi repo info.
  assert (∀ h' vs values,
            Forall2 (λ o v, h !! o = Some v) values vs →
            Forall2 (λ o v, (h ++ h') !! o = Some v) values vs) as Hmono.
  { intros h' vs values Hvs. eapply Forall2_impl; [exact Hvs |].
    intros ? ? E. by apply lookup_app_l_Some. }
  unfold print_repository.
  unfold bind at 1, gets at 1. unfold bind at 1, uprint at 1, modify at 1.
  unfold bind at 1.
  cbn [repository session_objects dest].
  rewrite (objstore_info_first qualifiers_key n1 d1 rest h _ vq Hn1 Hq).
  unfold bind at 1, uprint at 1, modify at 1. unfold bind at 1.
  cbn [repository session_objects dest].
  rewrite (objstore_info_first classes_key n1 d1 rest (h ++ vq) _ vc Hn1
             (Hmono _ _ _ Hc)).
  unfold bind at 1, uprint at 1, modify at 1. unfold bind at 1.
  cbn [repository session_objects dest].
  rewrite (objstore_info_first instances_key n1 d1 rest ((h ++ vq) ++ vc) _ vi
             Hn1).
  - unfold uprint, modify. cbn [repository session_objects dest store_of].
    unfold info, repo, od_keys. cbn [_repository fmap list_fmap fst].
    by rewrite <- !app_assoc.
  - rewrite <- app_assoc. by apply Hmono.
Qed.
End print_repository_facts.

Lemma print_repository_first_namespace_witness :
  let other := {| classes := self class_world_Foo;
                  instances := instance_store;
                  qualifiers := qualifiers (empty_namespace string) |} in
  let s := {| repository :=
                {| _repository := [("root/Test", empty_namespace string);
                                   ("Interop", other)] |};
              session_objects := objects class_world_Foo;
              dest := [] |} in
  strip "/" "root/Test" = "root/Test"
  ∧ len (classes other) = 1
  ∧ print_repository (python := assertions_on) s
    = (Return tt,
       {| repository := repository s;
          session_objects := session_objects s;
          dest := [NAMESPACES_line ["root/Test"; "Interop"];
                   QUALIFIERS_line
                     (Some {| info_namespace := "root/Test";
                              info_objstore_name := "qualifier";
                              info_len := 0; info_values := [] |});
                   CLASSES_line
                     (Some {| info_namespace := "root/Test";
                              info_objstore_name := "class";
                              info_len := 0; info_values := [] |});
                   INSTANCES_line
                     (Some {| info_namespace := "root/Test";
                              info_objstore_name := "instance";
                              info_len := 0; info_values := [] |})] |}).
Proof.
  intros other s. split; [reflexivity |]. split; [reflexivity |].
  exact (proj2 (print_repository_first_namespace (python := assertions_on)
                  "root/Test"
                  (empty_namespace string) [("Interop", other)]
                  (objects class_world_Foo) [] [] [] [])
           eq_refl ltac:(constructor) ltac:(constructor) ltac:(constructor)).
Defined.
